(** * Steam Price Updater: shallow embedding of the price engine of
    [price_updater_plugin.py] (calculator, rate provider, synchroniser,
    scheduler loop).

    Modelling conventions.
    - A Python [float] is modelled by its exact value as a rational [Q];
      IEEE infinities and NaN are not modelled.  [round(x, 2)] on a float is
      rounding of the exact value to two decimals, ties to even (CPython
      rounds the exact binary value correctly, half to even).  On a tie
      of the decimal literal that is not a tie of its binary value the two
      can differ: [round(11.315, 2)] is [11.31] in CPython (the double is
      just below 11.315) but [11.32] here.
    - Python exceptions are the constructor [Raise] of [res]; a [try/except]
      is a match on it.
    - Dicts whose iteration order matters (LOTS, the cache, the per-lot
      last-check dict) are association lists in insertion order. *)

From Stdlib Require Import ZArith QArith List String Ascii Bool Lia.
Import ListNotations.
From Stdlib Require Import Sorted Permutation.
Open Scope Z_scope.

(* ------------------------------------------------------------------ *)
(** ** Python values, exceptions and results *)

Inductive exn : Type :=
| ValueError
| TypeError
| OverflowError
| AttributeError
| KeyError
| RuntimeError
| RequestError.

Inductive res (A : Type) : Type :=
| Ret (a : A)
| Raise (e : exn).
Arguments Ret {A} a.
Arguments Raise {A} e.

Definition res_bind {A B} (m : res A) (k : A -> res B) : res B :=
  match m with
  | Ret a => k a
  | Raise e => Raise e
  end.

Notation "'let*' x := m 'in' k" := (res_bind m (fun x => k))
  (at level 200, x name, m at level 100, k at level 200).

(** The argument [steam_price : Union[float, int, str]] and any other Python
    object passed where a string or a number is expected. *)
Inductive pyval : Type :=
| PyFloat (q : Q)
| PyInt (z : Z)
| PyStr (s : string)
| PyNone.

(* ------------------------------------------------------------------ *)
(** ** Numeric helpers: comparisons, [min]/[max], [round(x, 2)] *)

Definition Qltb (a b : Q) : bool := negb (Qle_bool b a).
Definition Qleb (a b : Q) : bool := Qle_bool a b.

(** Builtin [min(a, b)]: keeps [a] unless [b < a]. *)
Definition py_min (a b : Q) : Q := if Qltb b a then b else a.
(** Builtin [max(a, b)]: keeps [a] unless [b > a]. *)
Definition py_max (a b : Q) : Q := if Qltb a b then b else a.

Definition Qabs' (q : Q) : Q := if Qltb q 0 then (- q)%Q else q.

(** Rounding of an exact rational to an integer, ties to even. *)
Definition round_half_even (q : Q) : Z :=
  let n := Qnum q in
  let d := Zpos (Qden q) in
  let fl := n / d in
  let r := n mod d in
  match Z.compare (2 * r) d with
  | Lt => fl
  | Gt => fl + 1
  | Eq => if Z.even fl then fl else fl + 1
  end.

(** [round(x, 2)]. *)
Definition py_round2 (x : Q) : Q := Qmake (round_half_even (x * 100)%Q) 100.

(** [float(z)] for a Python [int]: rounding to 53 significant bits, ties
    to even, and [OverflowError] when the rounded value reaches [2^1024]. *)
Definition int_to_float (z : Z) : res Q :=
  let a := Z.abs z in
  if a <? 2 ^ 53 then Ret (inject_Z z)
  else
    let sh := Z.log2 a - 52 in
    let q := Z.shiftr a sh in
    let rem := a - Z.shiftl q sh in
    let half := Z.shiftl 1 (sh - 1) in
    let q' := if rem <? half then q
              else if half <? rem then q + 1
              else if Z.even q then q else q + 1 in
    let m := Z.shiftl q' sh in
    if 2 ^ 1024 <=? m then Raise OverflowError
    else Ret (inject_Z (Z.sgn z * m)).

(** [str.upper()] on ASCII text (currency codes are ASCII). *)
Definition ascii_upper (c : ascii) : ascii :=
  let n := nat_of_ascii c in
  if andb (Nat.leb 97 n) (Nat.leb n 122) then ascii_of_nat (n - 32) else c.

Fixpoint str_upper (s : string) : string :=
  match s with
  | EmptyString => EmptyString
  | String c s' => String (ascii_upper c) (str_upper s')
  end.

(** Python [v == s] for a string literal [s]. *)
Definition py_eq_str (v : pyval) (s : string) : bool :=
  match v with
  | PyStr t => String.eqb t s
  | _ => false
  end.

(* ------------------------------------------------------------------ *)
(** ** Settings (the global [SETTINGS] dict, numeric fields as read by
    [calculate_lot_price]) *)

Record settings : Type := mkSettings {
  currency : string;        (* SETTINGS["currency"]: the account currency *)
  time_interval : Q;        (* SETTINGS["time"] *)
  first_markup : Q;
  second_markup : Q;
  fixed_markup : Q;
  max_price : Q;
  min_price : Q
}.

Definition default_settings : settings :=
  mkSettings "USD" 21600 3 5 (1 # 2) 5000 1.

(* ------------------------------------------------------------------ *)
(** ** Price calculator: [calculate_lot_price] *)

Section Calculator.
Local Open Scope Q_scope.

(** Python's [float(s)] on a string: [None] when it raises [ValueError]. *)
Variable float_of_str : string -> option Q.

(** Builtin [float(v)]. *)
Definition py_float (v : pyval) : res Q :=
  match v with
  | PyFloat q => Ret q
  | PyInt z => int_to_float z
  | PyStr s => match float_of_str s with
               | Some q => Ret q
               | None => Raise ValueError
               end
  | PyNone => Raise TypeError
  end.

(** Rates the provider resolves: [rates c] is what [get_currency_rate]
    returns for the upper-cased code [c] when it does not short-cut. *)
Variable rates : string -> Q.

(** [get_currency_rate(currency)] as seen by the calculator: [.upper()]
    raises on a non-string, ["USD"] gives [1.0] without I/O. *)
Definition get_currency_rate_value (c : pyval) : res Q :=
  match c with
  | PyStr s =>
      let u := str_upper s in
      if String.eqb u "USD" then Ret 1%Q else Ret (rates u)
  | _ => Raise AttributeError
  end.

(** Currency conversion of [calculate_lot_price]; [None] is the early
    [return 0.0] on a non-positive rate. *)
Definition convert_price (st : settings) (steam_price : Q) (steam_currency : pyval)
  : res (option Q) :=
  let account_currency := currency st in
  if py_eq_str steam_currency account_currency then Ret (Some steam_price)
  else if String.eqb account_currency "USD" then
    if py_eq_str steam_currency "USD" then Ret (Some steam_price)
    else
      let* currency_rate := get_currency_rate_value steam_currency in
      if Qleb currency_rate 0 then Ret None
      else Ret (Some (steam_price / currency_rate))
  else
    let* price_usd :=
      (if py_eq_str steam_currency "USD" then Ret (Some steam_price)
       else
         let* steam_rate := get_currency_rate_value steam_currency in
         if Qleb steam_rate 0 then Ret None
         else Ret (Some (steam_price / steam_rate))) in
    match price_usd with
    | None => Ret None
    | Some price_usd =>
        let* account_rate := get_currency_rate_value (PyStr account_currency) in
        if Qleb account_rate 0 then Ret None
        else Ret (Some (price_usd * account_rate))
    end.

(** Markups, clamp, then [round(final_price, 2)]. *)
Definition apply_markups (st : settings) (base_price : Q) : Q :=
  let price_with_currency_markup := base_price * (1 + first_markup st / 100) in
  let final_price :=
    price_with_currency_markup * (1 + second_markup st / 100) + fixed_markup st in
  let final_price := py_min final_price (max_price st) in
  let final_price := py_max final_price (min_price st) in
  py_round2 final_price.

(** The second [try] block (everything after the float conversion). *)
Definition calc_body (st : settings) (steam_price : Q) (steam_currency : pyval)
  : res Q :=
  let* base := convert_price st steam_price steam_currency in
  match base with
  | None => Ret 0%Q
  | Some base_price => Ret (apply_markups st base_price)
  end.

Definition calculate_lot_price (st : settings) (steam_price : pyval)
  (steam_currency : pyval) : res Q :=
  match py_float steam_price with
  | Raise ValueError | Raise TypeError => Ret 0%Q
  | Raise e => Raise e
  | Ret p =>
      if Qleb p (1 # 100) then Ret (min_price st)
      else
        match calc_body st p steam_currency with
        | Ret r => Ret r
        | Raise _ => Ret 0%Q          (* except Exception: return 0.0 *)
        end
  end.

End Calculator.

(** A string parser that rejects every string (used at inputs that are not
    strings). *)
Definition no_str_parse : string -> option Q := fun _ => None.

(** Rates of the worked scenario: [rate(A) = 40]. *)
Definition c1_rates (c : string) : Q := if String.eqb c "A" then 40%Q else 1%Q.

(** Settings of the worked scenario (the plugin's defaults). *)
Definition c1_settings : settings := mkSettings "USD" 21600 3 5 (1 # 2) 5000 1.

(* ------------------------------------------------------------------ *)
(** ** [UnifiedCacheManager] (the global [CACHE]) *)

(** Values stored in [CACHE]: rate dicts [{"rate", "timestamp", "source"}],
    Steam prices and game names. *)
Inductive cache_value : Type :=
| CRate (rate : Q) (timestamp : Q) (source : string)
| CPrice (price : Q)
| CName (name : string).

(** [{"value": ..., "timestamp": ...}]. *)
Record cache_entry : Type := mkEntry {
  entry_value : cache_value;
  entry_timestamp : Q
}.

(** The [cache] dict, in insertion order. *)
Definition cache := list (string * cache_entry).

Definition CACHE_TTL : Q := 3600.
Definition MAX_CACHE_SIZE : nat := 1000.

Fixpoint assoc_find {A : Type} (k : string) (l : list (string * A)) : option A :=
  match l with
  | [] => None
  | (k', v) :: l' => if String.eqb k k' then Some v else assoc_find k l'
  end.

(** [del d[k]]; the keys of a dict are unique, so this drops its one entry. *)
Fixpoint assoc_remove {A : Type} (k : string) (l : list (string * A)) : list (string * A) :=
  match l with
  | [] => []
  | (k', v) :: l' => if String.eqb k k' then assoc_remove k l' else (k', v) :: assoc_remove k l'
  end.

(** [d[k] = v]: overwrites in place, or appends a new key at the end. *)
Fixpoint assoc_put {A : Type} (k : string) (v : A) (l : list (string * A))
  : list (string * A) :=
  match l with
  | [] => [(k, v)]
  | (k', v') :: l' => if String.eqb k k' then (k, v) :: l' else (k', v') :: assoc_put k v l'
  end.

(** [UnifiedCacheManager.get]: an entry of age [>= ttl] is removed. *)
Definition cache_get (now : Q) (key : string) (c : cache) : option cache_value * cache :=
  match assoc_find key c with
  | Some e =>
      if Qltb (now - entry_timestamp e) CACHE_TTL then (Some (entry_value e), c)
      else (None, assoc_remove key c)
  | None => (None, c)
  end.

(** [min(self.cache.keys(), key=timestamp)]: the first key of least
    timestamp. *)
Fixpoint oldest_key (best : string * Q) (l : cache) : string :=
  match l with
  | [] => fst best
  | (k, e) :: l' =>
      if Qltb (entry_timestamp e) (snd best) then oldest_key (k, entry_timestamp e) l'
      else oldest_key best l'
  end.

Definition evict_oldest (c : cache) : cache :=
  match c with
  | [] => []                            (* min() of an empty sequence: ValueError, ignored *)
  | (k, e) :: l => assoc_remove (oldest_key (k, entry_timestamp e) l) c
  end.

(** [UnifiedCacheManager.set]. *)
Definition cache_set (now : Q) (key : string) (v : cache_value) (c : cache) : cache :=
  let c := if Nat.leb MAX_CACHE_SIZE (List.length c) then evict_oldest c else c in
  assoc_put key (mkEntry v now) c.

(* ------------------------------------------------------------------ *)
(** ** Rate provider: [get_currency_rate], [_get_currency_fallback],
    [_get_fallback_rate] *)

(** State and exceptions: a computation reads and writes the cache; an
    exception keeps the cache writes done before it, as in Python. *)
Definition M (A : Type) : Type := cache -> res A * cache.

Definition mret {A} (a : A) : M A := fun c => (Ret a, c).
Definition mraise {A} (e : exn) : M A := fun c => (Raise e, c).
Definition mbind {A B} (m : M A) (k : A -> M B) : M B :=
  fun c => match m c with
           | (Ret a, c') => k a c'
           | (Raise e, c') => (Raise e, c')
           end.
(** [try: m except Exception: h]. *)
Definition mcatch {A} (m : M A) (h : exn -> M A) : M A :=
  fun c => match m c with
           | (Raise e, c') => h e c'
           | r => r
           end.
Definition mlift {A} (r : res A) : M A := fun c => (r, c).
Definition mget (now : Q) (key : string) : M (option cache_value) :=
  fun c => let (v, c') := cache_get now key c in (Ret v, c').
Definition mset (now : Q) (key : string) (v : cache_value) : M unit :=
  fun c => (Ret tt, cache_set now key v c).

Notation "x <- m ;; k" := (mbind m (fun x => k))
  (at level 61, m at next level, right associativity).
Notation "m ;;; k" := (mbind m (fun _ => k))
  (at level 61, right associativity).

(** An HTTP response: [status_code] and the parsed JSON body, [None] when
    [response.json()] (or the extraction of the field) raises. *)
Record response (B : Type) : Type := mkResponse {
  status_code : Z;
  json_body : option B
}.
Arguments mkResponse {B} status_code json_body.
Arguments status_code {B} r.
Arguments json_body {B} r.

(** What the upstream rate sources answer during one call; [Raise] is a
    [requests] exception (timeout, connection error). *)
Record upstream : Type := mkUpstream {
  (* exchangerate-api: [data["rates"]], a value [None] when [float()] fails *)
  primary : res (response (list (string * option Q)));
  (* CBR: [Valute.USD.Value], [None] when [usd_data] is empty *)
  cbr : res (response (option Q));
  (* NBU: [data[0]["rate"]], [None] when [data] is not a non-empty list *)
  nbu : res (response (option Q))
}.

Definition json {B} (r : response B) : M B :=
  match json_body r with
  | Some b => mret b
  | None => mraise ValueError
  end.

Definition fallback_rates : list (string * Q) :=
  [("UAH"%string, 4182 # 100); ("RUB"%string, 7842 # 100);
   ("KZT"%string, 51986 # 100); ("EUR"%string, 85 # 100); ("USD"%string, 1%Q)].

(** [fallback_rates.get(currency, 1.0)]. *)
Definition static_rate (currency : string) : Q :=
  match assoc_find currency fallback_rates with Some r => r | None => 1%Q end.

Definition rate_key (currency : string) : string := String.append "currency_rate_" currency.

Section RateProvider.
Variable now : Q.
Variable up : upstream.

Definition _get_fallback_rate (currency : string) : M Q :=
  cached_rate <- mget now (rate_key currency) ;;
  let static := static_rate currency in
  match cached_rate with
  | Some (CRate rate _ _) => if Qltb 0 rate then mret rate else mret static
  | _ => mret static
  end.

(** A secondary source: returns [Some rate] when the [try] block returned. *)
Definition secondary (src : res (response (option Q))) (currency source : string)
  : M (option Q) :=
  response <- mlift src ;;
  if Z.eqb (status_code response) 200 then
    data <- json response ;;
    match data with
    | Some rate => mset now (rate_key currency) (CRate rate now source) ;;; mret (Some rate)
    | None => mret None
    end
  else mret None.

Definition _get_currency_fallback (currency : string) : M Q :=
  r <- mcatch
         (if String.eqb currency "RUB" then secondary (cbr up) currency "cbr"
          else if String.eqb currency "UAH" then secondary (nbu up) currency "nbu"
          else mret None)
         (fun _ => mret None) ;;
  match r with
  | Some rate => mret rate
  | None => _get_fallback_rate currency
  end.

Definition get_currency_rate (currency : string) : M Q :=
  let currency := str_upper currency in
  if String.eqb currency "USD" then mret 1%Q
  else
    let cache_key := rate_key currency in
    let primary_part :=
      mcatch
        (response <- mlift (primary up) ;;
         if Z.eqb (status_code response) 200 then
           rates <- json response ;;
           match assoc_find currency rates with
           | Some (Some rate) =>
               mset now cache_key (CRate rate now "exchangerate-api") ;;; mret rate
           | Some None => mraise ValueError          (* float(rates[currency]) *)
           | None => _get_currency_fallback currency
           end
         else _get_currency_fallback currency)
        (fun _ => _get_currency_fallback currency) in
    cached_rate <- mget now cache_key ;;
    match cached_rate with
    | Some (CRate rate ts _) =>
        if Qltb (now - ts) 900 then
          (* the default argument of [.get("rate", ...)] is evaluated *)
          _ <- _get_fallback_rate currency ;; mret rate
        else primary_part
    | _ => primary_part
    end.

End RateProvider.

(* ------------------------------------------------------------------ *)
(** ** Invariants of the rate provider *)

Section RateInvariants.
Variable P : Q -> Prop.

Definition value_ok (v : cache_value) : Prop :=
  match v with
  | CRate r _ _ => P r
  | _ => True
  end.

Definition cache_ok (c : cache) : Prop :=
  Forall (fun ke => value_ok (entry_value (snd ke))) c.

(** [m] ends normally with a value satisfying [post], or raises; the cache
    stays [cache_ok]. *)
Definition wp {A} (post : A -> Prop) (m : M A) : Prop :=
  forall c, cache_ok c ->
    match m c with
    | (Ret a, c') => post a /\ cache_ok c'
    | (Raise _, c') => cache_ok c'
    end.

(** [m] never raises. *)
Definition wpt {A} (post : A -> Prop) (m : M A) : Prop :=
  forall c, cache_ok c ->
    match m c with
    | (Ret a, c') => post a /\ cache_ok c'
    | (Raise _, _) => False
    end.

(** Hypotheses: every rate the code takes from an upstream source for
    [currency] (a status 200 answer whose body holds it), and every static
    fallback rate, satisfies [P].  CBR is read only for RUB, NBU only for
    UAH. *)
Definition upstream_ok (currency : string) (up : upstream) : Prop :=
  (forall resp rates q, primary up = Ret resp -> Z.eqb (status_code resp) 200 = true ->
     json_body resp = Some rates -> assoc_find currency rates = Some (Some q) -> P q) /\
  (currency = "RUB"%string -> forall resp q, cbr up = Ret resp ->
     Z.eqb (status_code resp) 200 = true -> json_body resp = Some (Some q) -> P q) /\
  (currency = "UAH"%string -> forall resp q, nbu up = Ret resp ->
     Z.eqb (status_code resp) 200 = true -> json_body resp = Some (Some q) -> P q).

Definition static_ok : Prop :=
  P 1%Q /\ forall k r, In (k, r) fallback_rates -> P r.

End RateInvariants.

(** The primary source yields no rate for [currency]: the request raises,
    the status is not 200, the body is not JSON, [rates] lacks the
    currency, or its value is not a number. *)
Definition primary_fails (currency : string) (r : res (response (list (string * option Q))))
  : Prop :=
  match r with
  | Raise _ => True
  | Ret resp =>
      Z.eqb (status_code resp) 200 = false \/
      match json_body resp with
      | Some rates => match assoc_find currency rates with Some (Some _) => False | _ => True end
      | None => True
      end
  end.

(** A secondary source yields no rate: the request raises, the status is
    not 200, the body is not JSON, or it holds no usable rate. *)
Definition secondary_fails (r : res (response (option Q))) : Prop :=
  match r with
  | Raise _ => True
  | Ret resp =>
      Z.eqb (status_code resp) 200 = false \/
      match json_body resp with Some (Some _) => False | _ => True end
  end.

(* ------------------------------------------------------------------ *)
(** ** Tracked lots and the remote account *)

(** [LOTS[lot_id]]: the fields the engine reads or writes. *)
Record lot : Type := mkLot {
  steam_id : option string;        (* "steam_id"; [None] when the key is missing *)
  steam_currency : option string;  (* "steam_currency" *)
  lot_min : option Q;              (* "min"; [None] when missing or not int/float *)
  lot_max : option Q;              (* "max" *)
  on : bool;                       (* truth value of [lot_data.get("on", False)] *)
  last_steam_price : Q;
  last_price : Q;
  last_update : Q
}.

(** The [LOTS] dict, in insertion order. *)
Definition lots := list (string * lot).

(** Answer of [cardinal.account.get_lot_fields(int(lot_id))]. *)
Inductive remote_answer : Type :=
| RFields (price : option Q)   (* an object with attribute [price]; [None] when it is None *)
| RNoFields                    (* [None], or an object without [price] *)
| RError (not_found : bool).   (* an exception ([int()] of a non-numeric id included);
                                  [not_found]: its lower-cased message contains
                                  "не найден" or "not found" *)

(** The mutable world of the synchroniser. *)
Record sync_state : Type := mkSyncState {
  st_lots : lots;
  st_remote : string -> remote_answer;   (* the listings on the marketplace *)
  st_writes : list (string * Q);         (* [save_lot] calls, oldest first *)
  st_saves : nat                         (* [save_to_file(LOTS, ...)] calls *)
}.

(** What one synchronisation depends on besides the state. *)
Record env : Type := mkEnv {
  env_settings : settings;
  env_rates : string -> Q;                     (* [get_currency_rate] results *)
  env_steam_price : string -> string -> option Q;  (* [get_steam_price(id, cur)] *)
  env_has_save_lot : bool                      (* [hasattr(account, 'save_lot')] *)
}.

Definition lot_in (id : string) (l : lots) : bool :=
  match assoc_find id l with Some _ => true | None => false end.

Definition save_lots (s : sync_state) : sync_state :=
  mkSyncState (st_lots s) (st_remote s) (st_writes s) (S (st_saves s)).

(** [del LOTS[id]] followed by [save_to_file], when [id in LOTS]. *)
Definition prune_lot (id : string) (s : sync_state) : sync_state :=
  if lot_in id (st_lots s) then
    save_lots (mkSyncState (assoc_remove id (st_lots s)) (st_remote s) (st_writes s)
                 (st_saves s))
  else s.

(** Apply [f] to [LOTS[id]]; [None] is the [KeyError] of a missing key. *)
Definition update_lot (id : string) (f : lot -> lot) (s : sync_state) : option sync_state :=
  match assoc_find id (st_lots s) with
  | Some l => Some (mkSyncState (assoc_put id (f l) (st_lots s)) (st_remote s)
                                (st_writes s) (st_saves s))
  | None => None
  end.

Definition set_last_price (new_price now : Q) (l : lot) : lot :=
  mkLot (steam_id l) (steam_currency l) (lot_min l) (lot_max l) (on l)
        (last_steam_price l) new_price now.

Definition set_last_steam_price (steam_price now : Q) (l : lot) : lot :=
  mkLot (steam_id l) (steam_currency l) (lot_min l) (lot_max l) (on l)
        steam_price (last_price l) now.

(** [cardinal.account.save_lot(lot_fields)] with [lot_fields.price = p]. *)
Definition save_lot (id : string) (p : Q) (s : sync_state) : sync_state :=
  mkSyncState (st_lots s)
              (fun k => if String.eqb k id then RFields (Some p) else st_remote s k)
              (st_writes s ++ [(id, p)]) (st_saves s).

(* ------------------------------------------------------------------ *)
(** ** Listing synchroniser: [change_price], [update_lot_price] *)

Definition change_price (now : Q) (has_save_lot : bool) (my_lot_id : string)
  (new_price : Q) (s : sync_state) : bool * sync_state :=
  if negb (lot_in my_lot_id (st_lots s)) then (false, s)
  else
    match st_remote s my_lot_id with
    | RError not_found =>
        if not_found then (false, prune_lot my_lot_id s) else (false, s)
    | RNoFields => (false, prune_lot my_lot_id s)
    | RFields None => (false, s)
    | RFields (Some old_price) =>
        if Qleb (1 # 200) (Qabs' (py_round2 new_price - py_round2 old_price)) then
          if has_save_lot then
            let s := save_lot my_lot_id new_price s in
            match update_lot my_lot_id (set_last_price new_price now) s with
            | Some s => (true, s)
            | None => (true, s)
            end
          else (false, s)
        else (true, s)
    end.

Definition validate_lot_data (d : lot) : bool :=
  match steam_id d, steam_currency d, lot_min d, lot_max d with
  | Some sid, Some _, Some mn, Some mx =>
      negb (String.eqb sid "") && Qltb 0 mn && Qltb 0 mx && Qleb mn mx
  | _, _, _, _ => false
  end.

Definition MAX_RETRIES : nat := 3.

(** The retry loop: stop at the first positive price, keep the last answer. *)
Fixpoint fetch_with_retries (attempts : nat) (fetch : unit -> option Q)
  (steam_price : option Q) : option Q :=
  match attempts with
  | O => steam_price
  | S n =>
      let p := fetch tt in
      match p with
      | Some v => if Qltb 0 v then p else fetch_with_retries n fetch p
      | None => fetch_with_retries n fetch p
      end
  end.

(** Everything [update_lot_price] does before [change_price]: validation,
    fetch, calculation and the lot's own bounds; [None] is a [return False]. *)
Definition compute_new_price (e : env) (d : lot) : option (Q * Q) :=
  if negb (validate_lot_data d) then None
  else
    match steam_id d, steam_currency d, lot_min d, lot_max d with
    | Some sid, Some scur, Some lot_min, Some lot_max =>
        let steam_price :=
          fetch_with_retries MAX_RETRIES (fun _ => env_steam_price e sid scur) None in
        match steam_price with
        | Some sp =>
            if Qleb sp 0 then None
            else
              match calculate_lot_price no_str_parse (env_rates e) (env_settings e)
                      (PyFloat sp) (PyStr scur) with
              | Raise _ => None
              | Ret new_price =>
                  if Qleb new_price 0 then None
                  else Some (sp, py_max lot_min (py_min new_price lot_max))
              end
        | None => None
        end
    | _, _, _, _ => None
    end.

Definition update_lot_price (e : env) (now : Q) (lot_id : string) (d : lot)
  (s : sync_state) : bool * sync_state :=
  match compute_new_price e d with
  | None => (false, s)
  | Some (steam_price, new_price) =>
      let (success, s) := change_price now (env_has_save_lot e) lot_id new_price s in
      if success then
        match update_lot lot_id (set_last_steam_price steam_price now) s with
        | Some s => (true, s)
        | None => (false, s)            (* KeyError caught: return False *)
        end
      else (false, s)
  end.

(* ------------------------------------------------------------------ *)
(** ** Scheduler loop: one pass of [post_start.process] *)

(** The per-lot [lot_last_check] dict. *)
Definition last_check := list (string * Q).

(** Result of the [for] loop: last-check dict, state, [any_lot_processed],
    whether the loop stopped on the [RuntimeError] of a dict that changed
    size during iteration, and for each call of [update_lot_price] the lot
    id with the last-check dict at the moment of the call. *)
Record loop_result : Type := mkLoopResult {
  lr_last_check : last_check;
  lr_state : sync_state;
  lr_any : bool;
  lr_aborted : bool;
  lr_trace : list (string * last_check)
}.

Fixpoint process_lots (e : env) (current_time : Q) (n0 : nat) (items : lots)
  (lc : last_check) (s : sync_state) (any : bool) (trace : list (string * last_check))
  : loop_result :=
  match items with
  | [] => mkLoopResult lc s any false trace
  | (lot_id, lot_data) :: rest =>
      if String.eqb lot_id "0" || negb (on lot_data) then
        process_lots e current_time n0 rest lc s any trace
      else
        let global_interval := time_interval (env_settings e) in
        let last := match assoc_find lot_id lc with Some t => t | None => 0%Q end in
        if Qltb (current_time - last) global_interval then
          process_lots e current_time n0 rest lc s any trace
        else
          let lc := assoc_put lot_id current_time lc in
          let trace := trace ++ [(lot_id, lc)] in
          let (_, s) := update_lot_price e current_time lot_id lot_data s in
          if Nat.eqb (List.length (st_lots s)) n0 then
            process_lots e current_time n0 rest lc s true trace
          else mkLoopResult lc s true true trace
  end.

(** One wake cycle at time [current_time]: the loop over [LOTS.items()],
    then [save_to_file] when a lot was processed and the loop finished. *)
Definition scheduler_cycle (e : env) (current_time : Q) (lc : last_check)
  (s : sync_state) : loop_result :=
  let r := process_lots e current_time (List.length (st_lots s)) (st_lots s) lc s false [] in
  if lr_any r && negb (lr_aborted r) then
    mkLoopResult (lr_last_check r) (save_lots (lr_state r)) (lr_any r) (lr_aborted r)
                 (lr_trace r)
  else r.

(* ------------------------------------------------------------------ *)
(** ** Sample inputs *)

(** A tracked lot: Steam app 730 priced in UAH, bounds [1, 5000], enabled. *)
Definition sample_lot : lot :=
  mkLot (Some "730"%string) (Some "UAH"%string) (Some 1%Q) (Some 5000%Q) true 0 0 0.

(** LOTS = {"1": sample_lot}; listing "1" currently priced [old_price]. *)
Definition state_with_price (old_price : Q) : sync_state :=
  mkSyncState [("1"%string, sample_lot)]
              (fun k => if String.eqb k "1" then RFields (Some old_price) else RError true)
              [] 0.

(** Steam answers 418.20 UAH for every lot; UAH at 41.82 per USD. *)
Definition sample_env : env :=
  mkEnv default_settings
        (fun c => if String.eqb c "UAH" then (4182 # 100)%Q else 1%Q)
        (fun _ _ => Some (41820 # 100)%Q)
        true.

(** Whether [change_price] calls [save_lot], from the two facts it reads:
    whether the lot is tracked and what the account answers. *)
Definition change_price_writes (has_save_lot : bool) (new_price : Q) (tracked : bool)
  (ans : remote_answer) : bool :=
  tracked &&
  match ans with
  | RFields (Some old_price) =>
      Qleb (1 # 200) (Qabs' (py_round2 new_price - py_round2 old_price)) && has_save_lot
  | _ => false
  end.

Definition c3_settings : settings := mkSettings "USD" 21600 3 5 (1 # 2) 5000 (1001 # 1000).

(** All three upstream rate sources fail. *)
Definition all_sources_down : upstream :=
  mkUpstream (Raise RequestError) (Raise RequestError) (Raise RequestError).

(** The primary source answers 500 with a body holding a negative GBP
    rate; CBR and NBU are down. *)
Definition primary_500 : upstream :=
  mkUpstream (Ret (mkResponse 500 (Some [("GBP"%string, Some (-1)%Q)])))
    (Raise RequestError) (Raise RequestError).

(* ------------------------------------------------------------------ *)
(** ** [UnifiedCacheManager.clear_by_pattern], [clear_expired];
    [clear_currency_cache] *)

(** Python [pattern in s] on strings. *)
Fixpoint str_contains (pattern s : string) : bool :=
  String.prefix pattern s ||
  match s with
  | EmptyString => false
  | String _ s' => str_contains pattern s'
  end.

(** [for key in keys: self._remove_key(key)]. *)
Definition remove_keys (keys : list string) (c : cache) : cache :=
  fold_left (fun c k => assoc_remove k c) keys c.

(** Returns [len(keys_to_remove)] and the cache afterwards. *)
Definition clear_by_pattern (pattern : string) (c : cache) : nat * cache :=
  let keys_to_remove := filter (fun k => str_contains pattern k) (map fst c) in
  (List.length keys_to_remove, remove_keys keys_to_remove c).

Definition clear_currency_cache (c : cache) : nat * cache :=
  clear_by_pattern "currency_rate_" c.

(** [clear_expired] at [current_time]; also the body of
    [cleanup_resources]. *)
Definition clear_expired (current_time : Q) (c : cache) : cache :=
  let expired_keys :=
    map fst (filter (fun kv => Qleb CACHE_TTL (current_time - entry_timestamp (snd kv))) c) in
  remove_keys expired_keys c.

(* ------------------------------------------------------------------ *)
(** ** String predicates of Python's [str] *)

(** A [string] here is a Python [str] whose code points are below 256
    (one [ascii] per code point, Latin-1). *)

(** [c.isspace()] for a code point below 256. *)
Definition py_isspace (c : ascii) : bool :=
  let n := nat_of_ascii c in
  (Nat.leb 9 n && Nat.leb n 13) || (Nat.leb 28 n && Nat.leb n 32) ||
  Nat.eqb n 133 || Nat.eqb n 160.

(** [c.isdigit()] for a code point below 256: ASCII digits and the
    superscripts one, two and three. *)
Definition py_isdigit_char (c : ascii) : bool :=
  let n := nat_of_ascii c in
  (Nat.leb 48 n && Nat.leb n 57) || Nat.eqb n 178 || Nat.eqb n 179 || Nat.eqb n 185.

Fixpoint all_chars (f : ascii -> bool) (s : string) : bool :=
  match s with
  | EmptyString => true
  | String c s' => f c && all_chars f s'
  end.

(** [s.isdigit()]: false on the empty string. *)
Definition py_isdigit (s : string) : bool :=
  negb (String.eqb s "") && all_chars py_isdigit_char s.

Fixpoint lstrip (s : string) : string :=
  match s with
  | EmptyString => EmptyString
  | String c s' => if py_isspace c then lstrip s' else s
  end.

Fixpoint rstrip (s : string) : string :=
  match s with
  | EmptyString => EmptyString
  | String c s' =>
      let r := rstrip s' in
      if py_isspace c && String.eqb r "" then EmptyString else String c r
  end.

(** [s.strip()]. *)
Definition py_strip (s : string) : string := rstrip (lstrip s).

(** [s[n:]]. *)
Fixpoint str_drop (n : nat) (s : string) : string :=
  match n, s with
  | O, _ => s
  | S _, EmptyString => EmptyString
  | S n', String _ s' => str_drop n' s'
  end.

(** Decimal digits of [int(s)]: ASCII digits, single underscores between
    digits; [prev] tells whether the last character read was a digit. *)
Fixpoint int_digits (s : string) (acc : Z) (prev : bool) : option Z :=
  match s with
  | EmptyString => if prev then Some acc else None
  | String c s' =>
      let n := nat_of_ascii c in
      if Nat.eqb n 95 then (if prev then int_digits s' acc false else None)
      else if Nat.leb 48 n && Nat.leb n 57 then int_digits s' (acc * 10 + Z.of_nat (n - 48)) true
      else None
  end.

(** [int(s)] on a [str]; [None] is the [ValueError]. *)
Definition py_int (s : string) : option Z :=
  match py_strip s with
  | String c r =>
      if Nat.eqb (nat_of_ascii c) 43 then int_digits r 0 false
      else if Nat.eqb (nat_of_ascii c) 45 then option_map Z.opp (int_digits r 0 false)
      else int_digits (String c r) 0 false
  | EmptyString => None
  end.

(* ------------------------------------------------------------------ *)
(** ** [validate_steam_id] *)

(** The message of a rejected id: empty, bad [sub_] form, other. *)
Inductive steam_id_error : Type :=
| EmptySteamId
| BadSubId
| BadSteamId.

(** [(True, id_type, clean_id)] or [(False, "", message)]. *)
Inductive steam_id_check : Type :=
| SteamIdOk (id_type clean_id : string)
| SteamIdBad (msg : steam_id_error).

Definition validate_steam_id (steam_id : string) : steam_id_check :=
  if String.eqb steam_id "" || String.eqb (py_strip steam_id) "" then SteamIdBad EmptySteamId
  else
    let steam_id := py_strip steam_id in
    if String.prefix "sub_" steam_id then
      let sub_id_num := str_drop 4 steam_id in
      if py_isdigit sub_id_num && Nat.ltb 0 (String.length sub_id_num)
      then SteamIdOk "sub" sub_id_num
      else SteamIdBad BadSubId
    else if py_isdigit steam_id && Nat.ltb 0 (String.length steam_id)
    then SteamIdOk "app" steam_id
    else SteamIdBad BadSteamId.

(* ------------------------------------------------------------------ *)
(** ** [get_steam_price] *)

#[local] Set Warnings "-register-all".

(** A value of [response.json()]: JSON as Python parses it (objects with
    unique keys). *)
Inductive jv : Type :=
| JNull
| JBool (b : bool)
| JInt (z : Z)
| JFloat (q : Q)
| JStr (s : string)
| JList (l : list jv)
| JObj (fields : list (string * jv)).

(** Truth value of a parsed JSON value. *)
Definition py_truthy (v : jv) : bool :=
  match v with
  | JNull => false
  | JBool b => b
  | JInt z => negb (Z.eqb z 0)
  | JFloat q => negb (Qeq_bool q 0)
  | JStr s => negb (String.eqb s "")
  | JList l => match l with [] => false | _ => true end
  | JObj f => match f with [] => false | _ => true end
  end.

(** [v.get(k, default)]: only a dict has [.get]. *)
Definition jget (v : jv) (k : string) (default : jv) : res jv :=
  match v with
  | JObj f => Ret (match assoc_find k f with Some x => x | None => default end)
  | _ => Raise AttributeError
  end.

(** [v > 0]: [bool] compares as an [int]; [None], strings, lists and
    dicts raise [TypeError]. *)
Definition py_gt0 (v : jv) : res bool :=
  match v with
  | JBool b => Ret b
  | JInt z => Ret (Z.ltb 0 z)
  | JFloat q => Ret (Qltb 0 q)
  | _ => Raise TypeError
  end.

(** [v / 100.0]. *)
Definition py_div100 (v : jv) : res Q :=
  match v with
  | JBool b => Ret (if b then (1 # 100)%Q else 0%Q)
  | JInt z => let* f := int_to_float z in Ret (f / 100)%Q
  | JFloat q => Ret (q / 100)%Q
  | _ => Raise TypeError
  end.

Definition currency_map : list (string * string) :=
  [("UAH"%string, "ua"%string); ("KZT"%string, "kz"%string); ("RUB"%string, "ru"%string);
   ("USD"%string, "us"%string); ("EUR"%string, "eu"%string)].

Definition steam_price_key (steam_id currency_code : string) : string :=
  String.append "steam_price_" (String.append steam_id (String.append "_" currency_code)).

Section SteamPrice.
Variable now : Q.
(** The Steam store's answer to the request for [(id_type, clean_id, cc)]
    ([packagedetails] for ["sub"], [appdetails] otherwise). *)
Variable steam_api : string -> string -> string -> res (response jv).

(** The [try] block of [get_steam_price], from the request on. *)
Definition steam_price_request (id_type clean_id cc_code cache_key : string)
  : M (option cache_value) :=
  let free := mset now cache_key (CPrice 0) ;;; mret (Some (CPrice 0%Q)) in
  response <- mlift (steam_api id_type clean_id cc_code) ;;
  if Z.eqb (status_code response) 200 then
    data <- json response ;;
    item_data <- mlift (jget data clean_id JNull) ;;
    if negb (py_truthy item_data) then mret None
    else
      success <- mlift (jget item_data "success" JNull) ;;
      if negb (py_truthy success) then mret None
      else
        d <- mlift (jget item_data "data" (JObj [])) ;;
        price_info <- mlift (jget d (if String.eqb id_type "sub" then "price" else "price_overview")
                              JNull) ;;
        if py_truthy price_info then
          final_price <- mlift (jget price_info "final" (JInt 0)) ;;
          positive <- mlift (py_gt0 final_price) ;;
          if positive then
            price_value <- mlift (py_div100 final_price) ;;
            mset now cache_key (CPrice price_value) ;;; mret (Some (CPrice price_value))
          else free
        else free
  else mret None.

(** [get_steam_price(steam_id, currency_code)]: returns the cached object
    as it is on a cache hit. *)
Definition get_steam_price (steam_id currency_code : string) : M (option cache_value) :=
  match validate_steam_id steam_id with
  | SteamIdBad _ => mret None
  | SteamIdOk id_type clean_id =>
      let cc_code := match assoc_find currency_code currency_map with
                     | Some c => c
                     | None => "ua"%string
                     end in
      let cache_key := steam_price_key steam_id currency_code in
      cached_price <- mget now cache_key ;;
      match cached_price with
      | Some v => mret (Some v)
      | None => mcatch (steam_price_request id_type clean_id cc_code cache_key)
                       (fun _ => mret None)
      end
  end.

End SteamPrice.

(** A store answering [{"730": {"success": true, "data": {"price_overview":
    {"final": 41820}}}}] to every request. *)
Definition sample_steam_api (id_type clean_id cc_code : string) : res (response jv) :=
  Ret (mkResponse 200 (Some (JObj [("730"%string,
        JObj [("success"%string, JBool true);
              ("data"%string, JObj [("price_overview"%string,
                                     JObj [("final"%string, JInt 41820)])])])]))).

(* ------------------------------------------------------------------ *)
(** ** Lot management handlers of [init] (Telegram callbacks and the text
    handler [edited]) *)

(** The [lot_id] of a callback is [call.data.split(":")[-1]]; the handlers
    below take it already split. *)


Definition set_steam_currency (c : string) (l : lot) : lot :=
  mkLot (steam_id l) (Some c) (lot_min l) (lot_max l) (on l)
        (last_steam_price l) (last_price l) (last_update l).

Definition set_steam_id (sid : string) (l : lot) : lot :=
  mkLot (Some sid) (steam_currency l) (lot_min l) (lot_max l) (on l)
        (last_steam_price l) (last_price l) (last_update l).

Definition set_bound (key : string) (v : Q) (l : lot) : lot :=
  if String.eqb key "min" then
    mkLot (steam_id l) (steam_currency l) (Some v) (lot_max l) (on l)
          (last_steam_price l) (last_price l) (last_update l)
  else
    mkLot (steam_id l) (steam_currency l) (lot_min l) (Some v) (on l)
          (last_steam_price l) (last_price l) (last_update l).

Definition with_lots (ls : lots) (s : sync_state) : sync_state :=
  mkSyncState ls (st_remote s) (st_writes s) (st_saves s).


(** [del LOTS[lot_id]]; [save_lots()]. *)
Definition delete_lot_confirm (lot_id : string) (s : sync_state) : sync_state :=
  if negb (lot_in lot_id (st_lots s)) then s
  else save_lots (with_lots (assoc_remove lot_id (st_lots s)) s).

(** [items.index(x)]; [None] is the [ValueError]. *)
Fixpoint py_index (x : string) (l : list string) : option nat :=
  match l with
  | [] => None
  | y :: l' => if String.eqb x y then Some O else option_map S (py_index x l')
  end.

(** [items[(items.index(cur) + 1) % len(items)]], or [dflt] on
    [ValueError]. *)
Definition next_in_cycle (items : list string) (cur dflt : string) : string :=
  match py_index cur items with
  | Some i => nth (Nat.modulo (S i) (List.length items)) items dflt
  | None => dflt
  end.

Definition account_currencies : list string := ["USD"; "RUB"; "EUR"]%string.

(** [switch_currency]: the account currency cycles USD, RUB, EUR. *)
Definition switch_currency (st : settings) : settings :=
  mkSettings (next_in_cycle account_currencies (currency st) "USD")
             (time_interval st) (first_markup st) (second_markup st) (fixed_markup st)
             (max_price st) (min_price st).

Definition steam_currencies : list string := ["UAH"; "KZT"; "RUB"; "USD"]%string.

(** [switch_steam_currency]: the lot's Steam currency cycles UAH, KZT, RUB,
    USD; [.get("steam_currency", "UAH")] reads a missing key as UAH. *)
Definition switch_steam_currency (lot_id : string) (s : sync_state) : sync_state :=
  if negb (lot_in lot_id (st_lots s)) then s
  else
    match update_lot lot_id
            (fun l => let cur := match steam_currency l with
                                 | Some c => c
                                 | None => "UAH"%string
                                 end in
                      set_steam_currency (next_in_cycle steam_currencies cur "UAH") l) s with
    | Some s' => save_lots s'
    | None => s
    end.

(** Python [s.replace(",", ".")]. *)
Fixpoint comma_to_dot (s : string) : string :=
  match s with
  | EmptyString => EmptyString
  | String c s' =>
      String (if Nat.eqb (nat_of_ascii c) 44 then "."%char else c) (comma_to_dot s')
  end.

(** The wizard state [{"step": "max_price", "lot_id", "steam_id",
    "steam_currency", "min_price"}]. *)
Record wizard_state : Type := mkWizardState {
  wz_lot_id : string;
  wz_steam_id : string;
  wz_steam_currency : string;
  wz_min_price : Q
}.

(** The dict [handle_wizard_input] stores: keys ["steam_id"],
    ["steam_currency"], ["min_price"], ["max_price"], ["enabled"],
    ["last_update"], ["last_price"]; the engine's keys ["min"], ["max"] and
    ["on"] are absent (and so is ["last_steam_price"], read as 0). *)
Definition wizard_lot (ws : wizard_state) (max_price : Q) : lot :=
  mkLot (Some (wz_steam_id ws)) (Some (wz_steam_currency ws)) None None false 0 0 0.

(** [handle_wizard_input], step ["max_price"], on the message text
    [text] (already stripped); [float_of_str] is Python's [float] on a
    string. *)
Definition handle_wizard_max_price (float_of_str : string -> option Q)
  (ws : wizard_state) (text : string) (s : sync_state) : sync_state :=
  match float_of_str (comma_to_dot text) with
  | None => s
  | Some max_price =>
      if Qleb max_price (wz_min_price ws) then s
      else save_lots (with_lots (assoc_put (wz_lot_id ws) (wizard_lot ws max_price) (st_lots s)) s)
  end.

(** The dict [edited] creates for a new lot when LOTS has no ["0"]: no
    ["steam_id"] key. *)
Definition default_new_lot (st : settings) : lot :=
  mkLot None (Some "UAH"%string) (Some (min_price st)) (Some (max_price st)) true 0 0 0.

(** [edited], key ["lot_id"]: [n] is the lot being edited, [new_lot_id]
    the stripped text. *)
Definition edit_lot_id (st : settings) (n new_lot_id : string) (s : sync_state) : sync_state :=
  if String.eqb n "0" then
    if lot_in new_lot_id (st_lots s) then s
    else
      let template := match assoc_find "0" (st_lots s) with
                      | Some d => d
                      | None => default_new_lot st
                      end in
      let ls := assoc_put new_lot_id template (st_lots s) in
      let ls := if lot_in "0" ls then assoc_remove "0" ls else ls in
      save_lots (with_lots ls s)
  else
    match assoc_find n (st_lots s) with
    | None => s
    | Some d =>
        if negb (String.eqb new_lot_id n) && lot_in new_lot_id (st_lots s) then s
        else
          let ls := if negb (String.eqb new_lot_id n)
                    then assoc_remove n (assoc_put new_lot_id d (st_lots s))
                    else st_lots s in
          save_lots (with_lots ls s)
    end.

(** [edited], key ["min"] or ["max"]: [LOTS[n][key] = float(text)], with
    no other check. *)
Definition edit_lot_bound (float_of_str : string -> option Q) (n key text : string)
  (s : sync_state) : sync_state :=
  if negb (lot_in n (st_lots s)) then s
  else
    match float_of_str text with
    | None => s
    | Some value =>
        match update_lot n (set_bound key value) s with
        | Some s' => save_lots s'
        | None => s
        end
    end.

(** The check of [edited], key ["steam_app_id"], on the stripped text. *)
Definition steam_app_id_accepted (steam_id : string) : bool :=
  if String.prefix "sub_" steam_id then
    let sub_id_num := str_drop 4 steam_id in
    py_isdigit sub_id_num && Nat.ltb 0 (String.length sub_id_num) &&
    match py_int sub_id_num with Some _ => true | None => false end
  else
    match py_int steam_id with
    | Some app_id => Z.ltb 0 app_id
    | None => false
    end.

(** [edited], key ["steam_app_id"]: stores the stripped text as
    ["steam_id"]. *)
Definition edit_steam_app_id (n text : string) (s : sync_state) : sync_state :=
  if negb (lot_in n (st_lots s)) then s
  else
    let steam_id := py_strip text in
    if steam_app_id_accepted steam_id then
      match update_lot n (set_steam_id steam_id) s with
      | Some s' => save_lots s'
      | None => s
      end
    else s.

(** [edited] with [n == "settings"]: [int_of_str] and [float_of_str] are
    Python's [int] and [float] on the text. *)
Definition edit_setting (int_of_str : string -> option Z) (float_of_str : string -> option Q)
  (key text : string) (st : settings) : settings :=
  if String.eqb key "time" then
    match int_of_str text with
    | None => st
    | Some hours =>
        let hours := if Z.ltb hours 1 then 1 else hours in
        mkSettings (currency st) (inject_Z (hours * 3600)) (first_markup st) (second_markup st)
                   (fixed_markup st) (max_price st) (min_price st)
    end
  else if String.eqb key "first_markup" || String.eqb key "second_markup"
          || String.eqb key "fixed_markup" then
    match float_of_str text with
    | None => st
    | Some value =>
        let value := if Qltb value 0 then 0%Q else value in
        if String.eqb key "first_markup" then
          mkSettings (currency st) (time_interval st) value (second_markup st)
                     (fixed_markup st) (max_price st) (min_price st)
        else if String.eqb key "second_markup" then
          mkSettings (currency st) (time_interval st) (first_markup st) value
                     (fixed_markup st) (max_price st) (min_price st)
        else
          mkSettings (currency st) (time_interval st) (first_markup st) (second_markup st)
                     value (max_price st) (min_price st)
    end
  else if String.eqb key "min_price" || String.eqb key "max_price" then
    match float_of_str text with
    | None => st
    | Some value =>
        if Qleb value 0 then st
        else if String.eqb key "min_price" then
          mkSettings (currency st) (time_interval st) (first_markup st) (second_markup st)
                     (fixed_markup st) (max_price st) value
        else
          mkSettings (currency st) (time_interval st) (first_markup st) (second_markup st)
                     (fixed_markup st) value (min_price st)
    end
  else st.

(* ------------------------------------------------------------------ *)
(** ** [update_now]: the manual update of every active lot *)

(** [active_lots]: ids of the lots with a true [on], ["0"] excluded. *)
Definition active_lot_ids (ls : lots) : list string :=
  map fst (filter (fun kv => on (snd kv) && negb (String.eqb (fst kv) "0")) ls).

(** The loop of [update_thread]: [LOTS[lot_id]] is read when the lot's
    turn comes ([KeyError] when it is gone counts as a failure). *)
Fixpoint update_now_loop (e : env) (now : Q) (ids : list string) (s : sync_state)
  (updated failed : nat) : nat * nat * sync_state :=
  match ids with
  | [] => (updated, failed, s)
  | lot_id :: rest =>
      match assoc_find lot_id (st_lots s) with
      | None => update_now_loop e now rest s updated (S failed)
      | Some lot_data =>
          let (ok, s') := update_lot_price e now lot_id lot_data s in
          if ok then update_now_loop e now rest s' (S updated) failed
          else update_now_loop e now rest s' updated (S failed)
      end
  end.

(** What [update_now] answers: "Cardinal недоступен", "Нет активных
    лотов", or, after the update thread, the counts [updated] and [failed]
    and the state after [save_lots()]. *)
Inductive update_now_answer : Type :=
| CardinalDown
| NoActiveLots
| UpdateDone (updated failed : nat) (s : sync_state).

(** [update_now]; [cardinal_healthy] is the result of
    [check_cardinal_health()]. *)
Definition update_now (cardinal_healthy : bool) (e : env) (now : Q) (s : sync_state)
  : update_now_answer :=
  if negb cardinal_healthy then CardinalDown
  else
    match active_lot_ids (st_lots s) with
    | [] => NoActiveLots
    | active =>
        let '(updated, failed, s') := update_now_loop e now active s 0 0 in
        UpdateDone updated failed (save_lots s')
    end.

(* ------------------------------------------------------------------ *)
(** ** [show_lots_menu]: order and pages of the lot list *)

Definition LOTS_PER_PAGE : nat := 8.

(** Python's [<] on [(not on, lot_id)] keys. *)
Definition lot_key_lt (a b : string * lot) : bool :=
  match on (snd a), on (snd b) with
  | true, false => true
  | false, true => false
  | _, _ => match String.compare (fst a) (fst b) with Lt => true | _ => false end
  end.

(** A stable insertion sort ([list.sort] is stable; with distinct ids the
    keys are distinct and the sorted list is unique). *)
Fixpoint insert_sorted (x : string * lot) (l : list (string * lot)) : list (string * lot) :=
  match l with
  | [] => [x]
  | y :: l' => if lot_key_lt x y then x :: l else y :: insert_sorted x l'
  end.

Fixpoint sort_lots (l : list (string * lot)) : list (string * lot) :=
  match l with
  | [] => []
  | x :: l' => insert_sorted x (sort_lots l')
  end.

(** [lot_items] after the sort. *)
Definition menu_items (ls : lots) : list (string * lot) :=
  sort_lots (filter (fun kv => negb (String.eqb (fst kv) "0")) ls).

(** [lot_items[page * per_page : page * per_page + per_page]]. *)
Definition menu_page (ls : lots) (page : nat) : list (string * lot) :=
  firstn LOTS_PER_PAGE (skipn (page * LOTS_PER_PAGE) (menu_items ls)).

(** Whether the page shows the "next" button: [end_idx < total_lots]. *)
Definition menu_has_next (ls : lots) (page : nat) : bool :=
  Nat.ltb (page * LOTS_PER_PAGE + LOTS_PER_PAGE) (List.length (menu_items ls)).

(* ------------------------------------------------------------------ *)
(** ** Sample caches *)

(** Whether the keys of a dict are pairwise distinct. *)
Fixpoint keys_distinct (l : list string) : bool :=
  match l with
  | [] => true
  | k :: l' => negb (existsb (String.eqb k) l') && keys_distinct l'
  end.

(** Three capital letters, distinct for [n < 17576]. *)
Definition sample_key (n : nat) : string :=
  String (ascii_of_nat (65 + n mod 26))
    (String (ascii_of_nat (65 + (n / 26) mod 26))
       (String (ascii_of_nat (65 + n / 676)) EmptyString)).

(** A cache of [MAX_CACHE_SIZE] prices whose oldest entry is the 501st. *)
Definition full_cache : cache :=
  map (fun n => (sample_key n, mkEntry (CPrice 1) (inject_Z (Z.of_nat ((n + 500) mod 1000)))))
    (seq 0 MAX_CACHE_SIZE).

(** Two entries share the least timestamp. *)
Definition tied_cache : cache :=
  [("a"%string, mkEntry (CPrice 1) 5); ("b"%string, mkEntry (CPrice 2) 3);
   ("c"%string, mkEntry (CPrice 3) 3); ("d"%string, mkEntry (CPrice 4) 4)].

(** ======================================================================= *)
(** * Theorems *)

(** ** Calculator lemmas *)

Lemma Qle_bool_false (a b : Q) : Qle_bool a b = false -> (b < a)%Q.
Proof.
  intros H. apply Qnot_le_lt. intro H'. apply Qle_bool_iff in H'. congruence.
Qed.

Lemma py_clamp_bounds (x lo hi : Q) :
  (lo <= hi)%Q -> (lo <= py_max (py_min x hi) lo <= hi)%Q.
Proof.
  intros Hlh. unfold py_max, py_min, Qltb.
  destruct (Qle_bool x hi) eqn:E1; simpl.
  - apply Qle_bool_iff in E1.
    destruct (Qle_bool lo x) eqn:E2; simpl.
    + apply Qle_bool_iff in E2. split; assumption.
    + split; [apply Qle_refl | exact Hlh].
  - destruct (Qle_bool lo hi) eqn:E2; simpl.
    + split; [exact Hlh | apply Qle_refl].
    + apply Qle_bool_false in E2. exfalso. apply (Qlt_not_le _ _ E2 Hlh).
Qed.

Lemma round_half_even_ge_floor (q : Q) :
  Qnum q / Zpos (Qden q) <= round_half_even q <= Qnum q / Zpos (Qden q) + 1.
Proof.
  unfold round_half_even. destruct (Z.compare _ _); try lia.
  destruct (Z.even _); lia.
Qed.

Lemma round_half_even_lower (k : Z) (q : Q) :
  (inject_Z k <= q)%Q -> k <= round_half_even q.
Proof.
  intros H. pose proof (round_half_even_ge_floor q) as Hr.
  destruct q as [n d]. unfold Qle in H. simpl in *.
  assert (k <= n / Zpos d) by (apply Z.div_le_lower_bound; lia). lia.
Qed.

Lemma round_half_even_upper (k : Z) (q : Q) :
  (q <= inject_Z k)%Q -> round_half_even q <= k.
Proof.
  intros H. destruct q as [n d]. unfold Qle in H. simpl in H.
  unfold round_half_even. cbn [Qnum Qden].
  assert (Hfl : n / Zpos d <= k) by (apply Z.div_le_upper_bound; lia).
  pose proof (Z.div_mod n (Zpos d) ltac:(lia)) as Hdm.
  pose proof (Z.mod_pos_bound n (Zpos d) ltac:(lia)) as Hmb.
  destruct (Z.eq_dec (n / Zpos d) k) as [Heq | Hne].
  - assert (n mod Zpos d = 0) by nia.
    assert (Hc : Z.compare (2 * (n mod Zpos d)) (Zpos d) = Lt)
      by (apply Z.compare_lt_iff; lia).
    rewrite Hc. lia.
  - destruct (Z.compare _ _); try lia. destruct (Z.even _); lia.
Qed.

(** A price is a whole number of cents when [round(p, 2) == p]. *)
Lemma whole_cents_inject (m : Q) :
  py_round2 m == m -> m * 100 == inject_Z (round_half_even (m * 100)).
Proof.
  unfold py_round2. intros H. rewrite <- H at 1.
  unfold Qeq, Qmult. simpl. ring.
Qed.

Lemma round2_between (lo hi c : Q) :
  py_round2 lo == lo -> py_round2 hi == hi ->
  (lo <= c <= hi)%Q -> (lo <= py_round2 c <= hi)%Q.
Proof.
  intros Hlo Hhi [H1 H2].
  apply whole_cents_inject in Hlo. apply whole_cents_inject in Hhi.
  set (klo := round_half_even (lo * 100)) in *.
  set (khi := round_half_even (hi * 100)) in *.
  assert (Hl : (inject_Z klo <= c * 100)%Q).
  { rewrite <- Hlo. apply Qmult_le_compat_r; [exact H1 | discriminate]. }
  assert (Hh : (c * 100 <= inject_Z khi)%Q).
  { rewrite <- Hhi. apply Qmult_le_compat_r; [exact H2 | discriminate]. }
  apply round_half_even_lower in Hl. apply round_half_even_upper in Hh.
  unfold py_round2. set (r := round_half_even (c * 100)) in *. split.
  - apply Qmult_le_r with (z := 100%Q); [reflexivity |].
    rewrite Hlo. unfold Qle, Qmult. simpl. lia.
  - apply Qmult_le_r with (z := 100%Q); [reflexivity |].
    rewrite Hhi. unfold Qle, Qmult. simpl. lia.
Qed.

Lemma rate_value_pos (rates : string -> Q) (s : string) :
  (forall c, 0 < rates c)%Q ->
  exists r, get_currency_rate_value rates (PyStr s) = Ret r /\ Qleb r 0 = false.
Proof.
  intros Hpos. unfold get_currency_rate_value.
  destruct (String.eqb (str_upper s) "USD").
  - exists 1%Q. split; reflexivity.
  - exists (rates (str_upper s)). split; [reflexivity |].
    unfold Qleb. destruct (Qle_bool _ 0) eqn:E; [| reflexivity].
    apply Qle_bool_iff in E. exfalso.
    apply (Qlt_not_le _ _ (Hpos (str_upper s)) E).
Qed.

Lemma convert_price_some (rates : string -> Q) (st : settings) (p : Q) (s : string) :
  (forall c, 0 < rates c)%Q ->
  exists b, convert_price rates st p (PyStr s) = Ret (Some b).
Proof.
  intros Hpos. unfold convert_price.
  destruct (rate_value_pos rates s Hpos) as [r1 [E1 L1]].
  destruct (rate_value_pos rates (currency st) Hpos) as [r2 [E2 L2]].
  destruct (py_eq_str (PyStr s) (currency st)); [eauto |].
  destruct (String.eqb (currency st) "USD").
  - destruct (py_eq_str (PyStr s) "USD"); [eauto |].
    rewrite E1. cbn [res_bind]. rewrite L1. eauto.
  - destruct (py_eq_str (PyStr s) "USD"); cbn [res_bind].
    + rewrite E2. cbn [res_bind]. rewrite L2. eauto.
    + rewrite E1. cbn [res_bind]. rewrite L1. cbn [res_bind].
      rewrite E2. cbn [res_bind]. rewrite L2. eauto.
Qed.

(** ** C1: the worked scenario *)

(** C1.  For [sourcePrice = 10.0] in currency [A] with [rate(A) = 40.0],
    account currency USD, markups 3%, 5% and 0.5, bounds [1.0, 5000.0]:
    the base price is [0.25], the marked-up price before clamping is
    [0.2575 * 1.05 + 0.5 = 0.770375], and [calculate_lot_price] returns
    exactly [1.00]. *)
Theorem calculate_lot_price_scenario :
  convert_price c1_rates c1_settings 10 (PyStr "A") = Ret (Some (10 / 40)%Q) /\
  (10 / 40 == 1 # 4)%Q /\
  (1 # 4) * (1 + 3 / 100) == 2575 # 10000 /\
  (2575 # 10000) * (1 + 5 / 100) + (1 # 2) == 770375 # 1000000 /\
  exists r, calculate_lot_price no_str_parse c1_rates c1_settings (PyFloat 10) (PyStr "A")
            = Ret r /\ r == 1.
Proof.
  split; [vm_compute; reflexivity |].
  split; [reflexivity |].
  split; [reflexivity |].
  split; [reflexivity |].
  exists (Qmake 100 100). split; [vm_compute; reflexivity | reflexivity].
Qed.

(** ** C2: exceptions in the calculation *)

(** C2 (counterexample).  An exception raised inside the calculation
    ([AttributeError] from [get_currency_rate(None)]) and a [ValueError]
    from [float("abc")] both make [calculate_lot_price] return [0.0], not
    [settings.minPrice = 1.0]. *)
Lemma calculate_lot_price_exception_not_min :
  calc_body c1_rates c1_settings 10 PyNone = Raise AttributeError /\
  calculate_lot_price no_str_parse c1_rates c1_settings (PyFloat 10) PyNone = Ret 0%Q /\
  calculate_lot_price no_str_parse c1_rates c1_settings (PyStr "abc") (PyStr "UAH")
    = Ret 0%Q /\
  ~ (0 == min_price c1_settings)%Q.
Proof.
  split; [reflexivity |].
  split; [vm_compute; reflexivity |].
  split; [vm_compute; reflexivity |].
  vm_compute. discriminate.
Qed.

(** C2 (amended).  An exception raised while converting currencies and
    applying markups is caught and [calculate_lot_price] returns the failure
    sentinel [0.0]; a [ValueError] or [TypeError] while converting
    [steam_price] to [float] also gives [0.0]. *)
Theorem calculate_lot_price_exception_zero
  (float_of_str : string -> option Q) (rates : string -> Q) (st : settings)
  (v c : pyval) :
  (forall e, py_float float_of_str v = Raise e ->
             e = ValueError \/ e = TypeError ->
             calculate_lot_price float_of_str rates st v c = Ret 0%Q) /\
  (forall p e, py_float float_of_str v = Ret p ->
               Qltb (1 # 100) p = true ->
               calc_body rates st p c = Raise e ->
               calculate_lot_price float_of_str rates st v c = Ret 0%Q).
Proof.
  split.
  - intros e Hf He. unfold calculate_lot_price. rewrite Hf.
    destruct He as [-> | ->]; reflexivity.
  - intros p e Hf Hlt Hb. unfold calculate_lot_price. rewrite Hf.
    unfold Qltb in Hlt. unfold Qleb.
    destruct (Qle_bool p (1 # 100)) eqn:E.
    + discriminate Hlt.
    + rewrite Hb. reflexivity.
Qed.

Lemma calculate_lot_price_exception_zero_witness :
  (py_float no_str_parse (PyStr "abc") = Raise ValueError /\
   calculate_lot_price no_str_parse c1_rates c1_settings (PyStr "abc") (PyStr "UAH")
     = Ret 0%Q) /\
  (py_float no_str_parse (PyFloat 10) = Ret 10%Q /\
   Qltb (1 # 100) 10 = true /\
   calc_body c1_rates c1_settings 10 PyNone = Raise AttributeError /\
   calculate_lot_price no_str_parse c1_rates c1_settings (PyFloat 10) PyNone = Ret 0%Q).
Proof.
  split.
  - split; [reflexivity |].
    apply (proj1 (calculate_lot_price_exception_zero no_str_parse c1_rates c1_settings
                    (PyStr "abc") (PyStr "UAH")) ValueError); [reflexivity | left; reflexivity].
  - split; [reflexivity |]. split; [reflexivity |]. split; [reflexivity |].
    apply (proj2 (calculate_lot_price_exception_zero no_str_parse c1_rates c1_settings
                    (PyFloat 10) PyNone) 10%Q AttributeError); reflexivity.
Defined.

(** ** C3: the output bounds *)

(** Settings with a floor that is not a whole number of cents. *)

(** C3 (counterexample).  With [min_price = 1.001] (positive, below
    [max_price]) and a positive price of [0.02 USD], the clamped price
    [1.001] is rounded to [1.00], below [min_price]. *)
Lemma calculate_lot_price_below_min :
  calculate_lot_price no_str_parse c1_rates c3_settings (PyFloat (2 # 100)) (PyStr "USD")
    = Ret (Qmake 100 100) /\
  (Qmake 100 100 < min_price c3_settings)%Q.
Proof. split; [vm_compute; reflexivity | reflexivity]. Qed.

(** C3 (amended).  For every float source price and every string currency,
    with positive rates and [min_price <= max_price] both whole numbers of
    cents ([round(x, 2) == x]), the output lies within
    [[min_price, max_price]]. *)
Theorem calculate_lot_price_within_bounds
  (float_of_str : string -> option Q) (rates : string -> Q) (st : settings)
  (p : Q) (s : string) :
  (forall c, 0 < rates c)%Q ->
  (min_price st <= max_price st)%Q ->
  py_round2 (min_price st) == min_price st ->
  py_round2 (max_price st) == max_price st ->
  exists r, calculate_lot_price float_of_str rates st (PyFloat p) (PyStr s) = Ret r /\
            (min_price st <= r <= max_price st)%Q.
Proof.
  intros Hpos Hle Hmin Hmax. unfold calculate_lot_price. cbn [py_float].
  destruct (Qleb p (1 # 100)).
  - exists (min_price st). split; [reflexivity |]. split; [apply Qle_refl | exact Hle].
  - destruct (convert_price_some rates st p s Hpos) as [b Hb].
    unfold calc_body. rewrite Hb. cbn [res_bind].
    exists (apply_markups st b). split; [reflexivity |].
    unfold apply_markups. apply round2_between; [exact Hmin | exact Hmax |].
    apply py_clamp_bounds. exact Hle.
Qed.

Lemma calculate_lot_price_within_bounds_witness :
  ((forall c, 0 < c1_rates c)%Q /\
   (min_price c1_settings <= max_price c1_settings)%Q /\
   py_round2 (min_price c1_settings) == min_price c1_settings /\
   py_round2 (max_price c1_settings) == max_price c1_settings) /\
  exists r, calculate_lot_price no_str_parse c1_rates c1_settings (PyFloat 10) (PyStr "A")
              = Ret r /\
            (min_price c1_settings <= r <= max_price c1_settings)%Q.
Proof.
  assert (Hpos : forall c, (0 < c1_rates c)%Q).
  { intros c. unfold c1_rates. destruct (String.eqb c "A"); reflexivity. }
  split.
  - split; [exact Hpos |]. split; [discriminate |].
    split; vm_compute; reflexivity.
  - apply calculate_lot_price_within_bounds; [exact Hpos | discriminate | | ];
      vm_compute; reflexivity.
Defined.

(** ** C4 and C9: the floor rule *)

(** C4.  For every float [sourcePrice <= 0], [calculate_lot_price] returns
    exactly [settings.minPrice], whatever the currency argument. *)
Theorem calculate_lot_price_nonpositive
  (float_of_str : string -> option Q) (rates : string -> Q) (st : settings)
  (p : Q) (c : pyval) :
  (p <= 0)%Q ->
  calculate_lot_price float_of_str rates st (PyFloat p) c = Ret (min_price st).
Proof.
  intros Hp. unfold calculate_lot_price. cbn [py_float].
  replace (Qleb p (1 # 100)) with true; [reflexivity |].
  symmetry. apply Qle_bool_iff. apply Qle_trans with 0%Q; [exact Hp | discriminate].
Qed.

Lemma calculate_lot_price_nonpositive_witness :
  (0 <= 0)%Q /\
  calculate_lot_price no_str_parse c1_rates c1_settings (PyFloat 0) (PyStr "UAH")
    = Ret (min_price c1_settings).
Proof.
  split; [apply Qle_refl |].
  apply calculate_lot_price_nonpositive. apply Qle_refl.
Defined.

(** C9.  For every float [sourcePrice] with [0 < sourcePrice <= 0.01],
    [calculate_lot_price] returns exactly [settings.minPrice] (no rate is
    looked up, no markup applied). *)
Theorem calculate_lot_price_below_one_cent
  (float_of_str : string -> option Q) (rates : string -> Q) (st : settings)
  (p : Q) (c : pyval) :
  (0 < p)%Q -> (p <= 1 # 100)%Q ->
  calculate_lot_price float_of_str rates st (PyFloat p) c = Ret (min_price st).
Proof.
  intros _ Hp. unfold calculate_lot_price. cbn [py_float].
  replace (Qleb p (1 # 100)) with true; [reflexivity |].
  symmetry. apply Qle_bool_iff. exact Hp.
Qed.

Lemma calculate_lot_price_below_one_cent_witness :
  (0 < 1 # 200)%Q /\ (1 # 200 <= 1 # 100)%Q /\
  calculate_lot_price no_str_parse c1_rates c1_settings (PyFloat (1 # 200)) (PyStr "UAH")
    = Ret (min_price c1_settings).
Proof.
  split; [reflexivity |]. split; [discriminate |].
  apply calculate_lot_price_below_one_cent; [reflexivity | discriminate].
Defined.

(** ** Rate provider lemmas: a weakest-precondition layer over [M] *)

Section RateProviderProofs.
Variable P : Q -> Prop.





Lemma wpt_wp {A} (post : A -> Prop) m : wpt P post m -> wp P post m.
Proof.
  intros H c Hc. specialize (H c Hc). destruct (m c) as [[a | e] c']; tauto.
Qed.

Lemma wpt_ret {A} (post : A -> Prop) a : post a -> wpt P post (mret a).
Proof. intros H c Hc. simpl. auto. Qed.

Lemma wp_raise {A} (post : A -> Prop) e : wp P post (mraise e).
Proof. intros c Hc. exact Hc. Qed.

Lemma wp_bind {A B} (q : A -> Prop) (post : B -> Prop) m (k : A -> M B) :
  wp P q m -> (forall a, q a -> wp P post (k a)) -> wp P post (mbind m k).
Proof.
  intros Hm Hk c Hc. unfold mbind. specialize (Hm c Hc).
  destruct (m c) as [[a | e] c']; [| exact Hm].
  destruct Hm as [Ha Hc']. exact (Hk a Ha c' Hc').
Qed.

Lemma wpt_bind {A B} (q : A -> Prop) (post : B -> Prop) m (k : A -> M B) :
  wpt P q m -> (forall a, q a -> wpt P post (k a)) -> wpt P post (mbind m k).
Proof.
  intros Hm Hk c Hc. unfold mbind. specialize (Hm c Hc).
  destruct (m c) as [[a | e] c']; [| contradiction].
  destruct Hm as [Ha Hc']. exact (Hk a Ha c' Hc').
Qed.

Lemma wpt_catch {A} (post : A -> Prop) m (h : exn -> M A) :
  wp P post m -> (forall e, wpt P post (h e)) -> wpt P post (mcatch m h).
Proof.
  intros Hm Hh c Hc. unfold mcatch. specialize (Hm c Hc).
  destruct (m c) as [[a | e] c']; [exact Hm | exact (Hh e c' Hm)].
Qed.

Lemma wp_lift {A} (r : res A) : wp P (fun a => r = Ret a) (mlift r).
Proof. intros c Hc. unfold mlift. destruct r; auto. Qed.

Lemma wp_json {B} (r : response B) : wp P (fun b => json_body r = Some b) (json r).
Proof.
  intros c Hc. unfold json. destruct (json_body r); simpl; auto.
Qed.

Lemma Forall_assoc_find {A} (R : A -> Prop) k (l : list (string * A)) v :
  Forall (fun kv => R (snd kv)) l -> assoc_find k l = Some v -> R v.
Proof.
  induction l as [| [k' v'] l IH]; simpl; [discriminate |].
  intros Hf. inversion Hf; subst.
  destruct (String.eqb k k'); [intros H; inversion H; subst; assumption | auto].
Qed.

Lemma Forall_assoc_remove {A} (R : A -> Prop) k (l : list (string * A)) :
  Forall (fun kv => R (snd kv)) l -> Forall (fun kv => R (snd kv)) (assoc_remove k l).
Proof.
  induction l as [| [k' v'] l IH]; simpl; [auto |].
  intros Hf. inversion Hf; subst.
  destruct (String.eqb k k'); auto.
Qed.

Lemma Forall_assoc_put {A} (R : A -> Prop) k v (l : list (string * A)) :
  Forall (fun kv => R (snd kv)) l -> R v -> Forall (fun kv => R (snd kv)) (assoc_put k v l).
Proof.
  induction l as [| [k' v'] l IH]; simpl; [auto |].
  intros Hf Hv. inversion Hf; subst.
  destruct (String.eqb k k'); auto.
Qed.

Lemma wpt_get now key :
  wpt P (fun o => match o with Some v => value_ok P v | None => True end) (mget now key).
Proof.
  intros c Hc. unfold mget, cache_get.
  destruct (assoc_find key c) as [e |] eqn:E; [| simpl; auto].
  destruct (Qltb _ _); simpl.
  - split; [| exact Hc].
    exact (Forall_assoc_find (fun e => value_ok P (entry_value e)) key c e Hc E).
  - split; [exact I |]. apply (Forall_assoc_remove (fun e : cache_entry => value_ok P (entry_value e))), Hc.
Qed.

Lemma wpt_set now key r ts src :
  P r -> wpt P (fun _ => True) (mset now key (CRate r ts src)).
Proof.
  intros Hr c Hc. unfold mset, cache_set. split; [exact I |].
  apply (Forall_assoc_put (fun e : cache_entry => value_ok P (entry_value e))); [| exact Hr].
  destruct (Nat.leb _ _); [| exact Hc].
  unfold evict_oldest. destruct c as [| [k e] l]; [exact Hc |].
  apply (Forall_assoc_remove (fun e : cache_entry => value_ok P (entry_value e))), Hc.
Qed.



Hypothesis Hstatic : static_ok P.

Lemma static_lookup_ok (currency : string) :
  P (static_rate currency).
Proof.
  destruct Hstatic as [H1 Hin]. unfold static_rate.
  destruct (assoc_find currency fallback_rates) as [r |] eqn:E; [| exact H1].
  unfold fallback_rates in E. simpl in E.
  repeat match goal with
         | E : context [String.eqb ?a ?b] |- _ => destruct (String.eqb a b)
         end;
    try (inversion E; subst; eapply Hin; simpl; tauto); discriminate.
Qed.

Lemma fallback_rate_wpt now currency : wpt P P (_get_fallback_rate now currency).
Proof.
  unfold _get_fallback_rate. eapply wpt_bind; [apply wpt_get |].
  intros o Ho. destruct o as [[r ts src | p | n] |];
    try (apply wpt_ret, static_lookup_ok).
  destruct (Qltb 0 r); apply wpt_ret; [exact Ho | apply static_lookup_ok].
Qed.

Lemma assoc_find_In {A} k (l : list (string * A)) v :
  assoc_find k l = Some v -> In (k, v) l.
Proof.
  induction l as [| [k' v'] l IH]; simpl; [discriminate |].
  destruct (String.eqb k k') eqn:E.
  - intros H. inversion H; subst. apply String.eqb_eq in E. subst. left; reflexivity.
  - intros H. right. auto.
Qed.

Lemma secondary_wp now src currency source :
  (forall resp q, src = Ret resp -> Z.eqb (status_code resp) 200 = true ->
     json_body resp = Some (Some q) -> P q) ->
  wp P (fun o => match o with Some r => P r | None => True end)
     (secondary now src currency source).
Proof.
  intros Hsrc. unfold secondary. eapply wp_bind; [apply wp_lift |].
  intros resp Hresp. destruct (Z.eqb _ _) eqn:Es.
  - eapply wp_bind; [apply wp_json |].
    intros data Hdata. destruct data as [rate |].
    + apply wpt_wp. eapply wpt_bind; [apply wpt_set; exact (Hsrc resp rate Hresp Es Hdata) |].
      intros _ _. apply wpt_ret. exact (Hsrc resp rate Hresp Es Hdata).
    + apply wpt_wp, wpt_ret. exact I.
  - apply wpt_wp, wpt_ret. exact I.
Qed.

Lemma currency_fallback_wpt now up currency :
  upstream_ok P currency up -> wpt P P (_get_currency_fallback now up currency).
Proof.
  intros [_ [Hcbr Hnbu]]. unfold _get_currency_fallback.
  apply wpt_bind with (q := fun o => match o with Some r => P r | None => True end).
  - apply wpt_catch; [| intros _; apply wpt_ret; exact I].
    destruct (String.eqb currency "RUB") eqn:Er;
      [apply String.eqb_eq in Er; apply secondary_wp, Hcbr, Er |].
    destruct (String.eqb currency "UAH") eqn:Eu;
      [apply String.eqb_eq in Eu; apply secondary_wp, Hnbu, Eu |].
    apply wpt_wp, wpt_ret. exact I.
  - intros [r |] Hr; [apply wpt_ret, Hr | apply fallback_rate_wpt].
Qed.

Lemma get_currency_rate_wpt now up currency :
  upstream_ok P (str_upper currency) up -> wpt P P (get_currency_rate now up currency).
Proof.
  intros Hup. pose proof Hup as [Hprim _].
  unfold get_currency_rate.
  destruct (String.eqb (str_upper currency) "USD");
    [apply wpt_ret, (proj1 Hstatic) |].
  eapply wpt_bind; [apply wpt_get |].
  assert (Hpp : wpt P P
    (mcatch
       (response <- mlift (primary up) ;;
        if Z.eqb (status_code response) 200 then
          rates <- json response ;;
          match assoc_find (str_upper currency) rates with
          | Some (Some rate) =>
              mset now (rate_key (str_upper currency)) (CRate rate now "exchangerate-api") ;;;
              mret rate
          | Some None => mraise ValueError
          | None => _get_currency_fallback now up (str_upper currency)
          end
        else _get_currency_fallback now up (str_upper currency))
       (fun _ => _get_currency_fallback now up (str_upper currency)))).
  { apply wpt_catch; [| intros _; apply currency_fallback_wpt, Hup].
    eapply wp_bind; [apply wp_lift |]. intros resp Hresp.
    destruct (Z.eqb _ _) eqn:Es; [| apply wpt_wp, currency_fallback_wpt, Hup].
    eapply wp_bind; [apply wp_json |]. intros rates Hrates.
    destruct (assoc_find (str_upper currency) rates) as [[rate |] |] eqn:E.
    - pose proof (Hprim resp rates rate Hresp Es Hrates E) as Hr.
      apply wpt_wp. eapply wpt_bind; [apply wpt_set, Hr |].
      intros _ _. apply wpt_ret, Hr.
    - apply wp_raise.
    - apply wpt_wp, currency_fallback_wpt, Hup. }
  intros o Ho. destruct o as [[rate ts src | p | n] |]; try exact Hpp.
  destruct (Qltb (now - ts) 900); [| exact Hpp].
  eapply wpt_bind; [apply fallback_rate_wpt |]. intros _ _. apply wpt_ret, Ho.
Qed.

End RateProviderProofs.


Lemma secondary_fails_none now src cur source c :
  secondary_fails src ->
  mcatch (secondary now src cur source) (fun _ => mret None) c = (Ret None, c).
Proof.
  unfold secondary_fails, mcatch, secondary, mbind, mlift.
  destruct src as [resp | e]; [| reflexivity]. intros Hf.
  destruct (Z.eqb (status_code resp) 200) eqn:Es; [| reflexivity].
  destruct Hf as [Hf | Hf]; [discriminate |].
  unfold json. destruct (json_body resp) as [[q |] |]; [contradiction | reflexivity | reflexivity].
Qed.

Lemma currency_fallback_fails now up U c :
  (U = "RUB"%string -> secondary_fails (cbr up)) ->
  (U = "UAH"%string -> secondary_fails (nbu up)) ->
  assoc_find (rate_key U) c = None ->
  _get_currency_fallback now up U c = (Ret (static_rate U), c).
Proof.
  intros Hr Hu Hc. unfold _get_currency_fallback. unfold mbind at 1.
  assert (H : mcatch
                (if String.eqb U "RUB" then secondary now (cbr up) U "cbr"
                 else if String.eqb U "UAH" then secondary now (nbu up) U "nbu"
                 else mret None) (fun _ => mret None) c = (Ret None, c)).
  { destruct (String.eqb U "RUB") eqn:Er.
    - apply secondary_fails_none, Hr, String.eqb_eq, Er.
    - destruct (String.eqb U "UAH") eqn:Eu; [apply secondary_fails_none, Hu, String.eqb_eq, Eu |].
      reflexivity. }
  rewrite H. unfold _get_fallback_rate, mbind, mget, cache_get. rewrite Hc. reflexivity.
Qed.

Lemma gcr_fail now up cur c :
  primary_fails (str_upper cur) (primary up) ->
  (str_upper cur = "RUB"%string -> secondary_fails (cbr up)) ->
  (str_upper cur = "UAH"%string -> secondary_fails (nbu up)) ->
  assoc_find (rate_key (str_upper cur)) c = None ->
  get_currency_rate now up cur c = (Ret (static_rate (str_upper cur)), c).
Proof.
  intros Hp Hr Hu Hc. pose proof (currency_fallback_fails now up _ c Hr Hu Hc) as Hfb.
  unfold get_currency_rate.
  destruct (String.eqb (str_upper cur) "USD") eqn:Eusd.
  - apply String.eqb_eq in Eusd. rewrite Eusd. reflexivity.
  - unfold mbind at 1, mget, cache_get. rewrite Hc. cbn iota beta.
    unfold mcatch, mbind at 1, mlift. unfold primary_fails in Hp.
    destruct (primary up) as [resp | e]; [| exact Hfb].
    destruct (Z.eqb (status_code resp) 200) eqn:Es; [| rewrite Hfb; reflexivity].
    destruct Hp as [Hp | Hp]; [discriminate |].
    unfold mbind, json. destruct (json_body resp) as [rates |]; [| exact Hfb].
    unfold mret at 1. cbv beta iota.
    destruct (assoc_find (str_upper cur) rates) as [[q |] |];
      [contradiction | exact Hfb | rewrite Hfb; reflexivity].
Qed.

Lemma cache_ok_True (c : cache) : cache_ok (fun _ => True) c.
Proof.
  apply Forall_forall. intros [k [v ts]] _. destruct v; exact I.
Qed.

Lemma upstream_ok_True (U : string) (up : upstream) : upstream_ok (fun _ => True) U up.
Proof. repeat split. Qed.

Lemma static_ok_pos : static_ok (fun q => 0 < q)%Q.
Proof.
  split; [reflexivity |]. intros k r Hin.
  unfold fallback_rates in Hin. simpl in Hin.
  repeat destruct Hin as [Hin | Hin]; try (inversion Hin; subst; reflexivity);
    contradiction.
Qed.

(** ** C5: the rate provider never fails *)

(** C5.  For every currency string, every upstream outcome and every cache
    state, [get_currency_rate] returns a value and raises nothing; the value
    is positive whenever the rate the code takes from an upstream source
    and the cached rates are positive.  When the primary source fails in
    any way (exception, status other than 200, body not JSON, currency
    missing from [rates], value not a number), the secondary source
    consulted for the currency (CBR for RUB, NBU for UAH) fails likewise,
    and the cache holds no rate for the currency, it returns the static
    fallback rate, which is positive, and [1.0] for a currency absent from
    the static table; the cache is left unchanged. *)
Theorem get_currency_rate_never_fails (now : Q) (up : upstream) (cur : string) (c : cache) :
  (exists r c', get_currency_rate now up cur c = (Ret r, c')) /\
  (upstream_ok (fun q => 0 < q)%Q (str_upper cur) up -> cache_ok (fun q => 0 < q)%Q c ->
     exists r c', get_currency_rate now up cur c = (Ret r, c') /\ (0 < r)%Q) /\
  (primary_fails (str_upper cur) (primary up) ->
   (str_upper cur = "RUB"%string -> secondary_fails (cbr up)) ->
   (str_upper cur = "UAH"%string -> secondary_fails (nbu up)) ->
   assoc_find (rate_key (str_upper cur)) c = None ->
     get_currency_rate now up cur c = (Ret (static_rate (str_upper cur)), c) /\
     (0 < static_rate (str_upper cur))%Q /\
     (assoc_find (str_upper cur) fallback_rates = None ->
        get_currency_rate now up cur c = (Ret 1%Q, c))).
Proof.
  split; [| split].
  - assert (H : wpt (fun _ => True) (fun _ => True) (get_currency_rate now up cur)).
    { apply get_currency_rate_wpt; [split; [exact I | intros; exact I] | apply upstream_ok_True]. }
    specialize (H c (cache_ok_True c)).
    destruct (get_currency_rate now up cur c) as [[r | e] c']; [eauto | contradiction].
  - intros Hup Hc.
    pose proof (get_currency_rate_wpt _ static_ok_pos now up cur Hup c Hc) as H.
    destruct (get_currency_rate now up cur c) as [[r | e] c']; [| contradiction].
    destruct H as [Hr _]. eauto.
  - intros Hp Hr Hu Hc.
    rewrite (gcr_fail now up cur c Hp Hr Hu Hc).
    split; [reflexivity |]. split; [apply (static_lookup_ok _ static_ok_pos) |].
    intros Hn. unfold static_rate. rewrite Hn. reflexivity.
Qed.

(** The primary source answers 500 with a body holding a negative rate,
    which the code never reads; CBR and NBU are down. *)
Lemma get_currency_rate_never_fails_witness :
  (upstream_ok (fun q => 0 < q)%Q (str_upper "gbp") primary_500 /\
   cache_ok (fun q => 0 < q)%Q [] /\
   exists r c', get_currency_rate 0 primary_500 "gbp" [] = (Ret r, c') /\ (0 < r)%Q) /\
  (primary_fails (str_upper "gbp") (primary primary_500) /\
   assoc_find (rate_key (str_upper "gbp")) ([] : cache) = None /\
   assoc_find (str_upper "gbp") fallback_rates = None /\
   get_currency_rate 0 primary_500 "gbp" [] = (Ret 1%Q, [])).
Proof.
  assert (Hup : upstream_ok (fun q => 0 < q)%Q (str_upper "gbp") primary_500).
  { split; [intros resp rates q Hp Hs; injection Hp as <-; discriminate |].
    split; intros Hk; discriminate Hk. }
  assert (Hc : cache_ok (fun q => 0 < q)%Q []) by constructor.
  assert (Hp : primary_fails (str_upper "gbp") (primary primary_500)) by (left; reflexivity).
  assert (Hr : str_upper "gbp" = "RUB"%string -> secondary_fails (cbr primary_500))
    by (intros _; exact I).
  assert (Hu : str_upper "gbp" = "UAH"%string -> secondary_fails (nbu primary_500))
    by (intros _; exact I).
  split.
  - split; [exact Hup |]. split; [exact Hc |].
    exact (proj1 (proj2 (get_currency_rate_never_fails 0 primary_500 "gbp" []))
             Hup Hc).
  - split; [exact Hp |]. split; [reflexivity |]. split; [reflexivity |].
    apply (proj2 (proj2 (proj2 (get_currency_rate_never_fails 0 primary_500 "gbp" []))
             Hp Hr Hu eq_refl)).
    reflexivity.
Defined.

(** ** Synchroniser lemmas *)

Lemma assoc_find_remove_same {A} k (l : list (string * A)) :
  assoc_find k (assoc_remove k l) = None.
Proof.
  induction l as [| [k' v'] l IH]; simpl; [reflexivity |].
  destruct (String.eqb k k') eqn:E; [exact IH |]. simpl. rewrite E. exact IH.
Qed.

Lemma assoc_find_put_same {A} k v (l : list (string * A)) :
  assoc_find k (assoc_put k v l) = Some v.
Proof.
  induction l as [| [k' v'] l IH]; simpl.
  - rewrite String.eqb_refl. reflexivity.
  - destruct (String.eqb k k') eqn:E; simpl.
    + rewrite String.eqb_refl. reflexivity.
    + rewrite E. exact IH.
Qed.

Lemma assoc_find_put_other {A} k k2 v (l : list (string * A)) :
  String.eqb k2 k = false -> assoc_find k2 (assoc_put k v l) = assoc_find k2 l.
Proof.
  intros Hne. induction l as [| [k' v'] l IH]; simpl.
  - rewrite Hne. reflexivity.
  - destruct (String.eqb k k') eqn:E; simpl.
    + apply String.eqb_eq in E. subst k'. rewrite Hne. reflexivity.
    + destruct (String.eqb k2 k'); [reflexivity | exact IH].
Qed.

Lemma lot_in_put k k2 v (l : lots) :
  lot_in k2 (assoc_put k v l) = lot_in k2 l || String.eqb k2 k.
Proof.
  unfold lot_in. destruct (String.eqb k2 k) eqn:E.
  - apply String.eqb_eq in E. subst. rewrite assoc_find_put_same.
    destruct (assoc_find k l); reflexivity.
  - rewrite (assoc_find_put_other k k2 v l E). destruct (assoc_find k2 l); reflexivity.
Qed.

Lemma update_lot_view id f s s' :
  update_lot id f s = Some s' ->
  st_writes s' = st_writes s /\ st_remote s' = st_remote s /\
  (forall k, lot_in k (st_lots s') = lot_in k (st_lots s)) /\ lot_in id (st_lots s) = true.
Proof.
  unfold update_lot. destruct (assoc_find id (st_lots s)) as [l |] eqn:E; [| discriminate].
  intros H. inversion H; subst; clear H. simpl.
  split; [reflexivity |]. split; [reflexivity |]. split.
  - intros k. rewrite lot_in_put. destruct (String.eqb k id) eqn:Ek.
    + apply String.eqb_eq in Ek. subst. unfold lot_in. rewrite E. reflexivity.
    + apply orb_false_r.
  - unfold lot_in. rewrite E. reflexivity.
Qed.

Lemma round2_diff_self (p : Q) :
  Qleb (1 # 200) (Qabs' (py_round2 p - py_round2 p)) = false.
Proof.
  unfold Qleb, Qabs', Qltb.
  assert (H : (py_round2 p - py_round2 p == 0)%Q) by ring.
  destruct (Qle_bool 0 (py_round2 p - py_round2 p)); simpl.
  - destruct (Qle_bool (1 # 200) (py_round2 p - py_round2 p)) eqn:E; [| reflexivity].
    apply Qle_bool_iff in E. rewrite H in E. exfalso. apply E. reflexivity.
  - destruct (Qle_bool (1 # 200) (- (py_round2 p - py_round2 p))) eqn:E; [| reflexivity].
    apply Qle_bool_iff in E. rewrite H in E. exfalso. apply E. reflexivity.
Qed.

(** [change_price] appends one [save_lot] call exactly when
    [change_price_writes] says so. *)
Lemma change_price_writes_spec now hs id np s :
  st_writes (snd (change_price now hs id np s)) =
  st_writes s ++ (if change_price_writes hs np (lot_in id (st_lots s)) (st_remote s id)
                  then [(id, np)] else []).
Proof.
  unfold change_price, change_price_writes.
  destruct (lot_in id (st_lots s)) eqn:Ein; simpl; [| rewrite app_nil_r; reflexivity].
  assert (Hpr : st_writes (prune_lot id s) = st_writes s).
  { unfold prune_lot. rewrite Ein. reflexivity. }
  destruct (st_remote s id) as [[old |] | | [|]]; simpl;
    try (rewrite Hpr, app_nil_r; reflexivity); try (rewrite app_nil_r; reflexivity).
  destruct (Qleb _ _); destruct hs; simpl; try (rewrite app_nil_r; reflexivity).
  destruct (update_lot id _ _) as [s' |] eqn:E; simpl; [| reflexivity].
  apply update_lot_view in E. destruct E as [-> _]. reflexivity.
Qed.

(** After [change_price], a second one with the same price writes nothing. *)
Lemma change_price_settled now hs id np s :
  let s' := snd (change_price now hs id np s) in
  change_price_writes hs np (lot_in id (st_lots s')) (st_remote s' id) = false.
Proof.
  unfold change_price.
  destruct (lot_in id (st_lots s)) eqn:Ein; simpl;
    [| unfold change_price_writes; rewrite Ein; reflexivity].
  assert (Hpr : lot_in id (st_lots (prune_lot id s)) = false).
  { unfold prune_lot. rewrite Ein. simpl. unfold lot_in.
    rewrite assoc_find_remove_same. reflexivity. }
  unfold change_price_writes.
  destruct (st_remote s id) as [[old |] | | [|]] eqn:Er; simpl;
    try (rewrite Hpr; reflexivity);
    try (rewrite Ein, Er; reflexivity).
  destruct (Qleb _ _) eqn:Eth; [destruct hs |]; simpl.
  - destruct (update_lot id _ _) as [s' |] eqn:E; simpl.
    + apply update_lot_view in E. destruct E as [_ [-> [Hk _]]]. simpl.
      rewrite String.eqb_refl, round2_diff_self.
      destruct (lot_in id (st_lots s')); reflexivity.
    + rewrite String.eqb_refl, round2_diff_self. rewrite Ein. reflexivity.
  - rewrite Ein, Er, Eth. reflexivity.
  - rewrite Ein, Er, Eth. reflexivity.
Qed.

Lemma change_price_after_write now hs id np s :
  change_price_writes hs np (lot_in id (st_lots s)) (st_remote s id) = true ->
  let r := change_price now hs id np s in
  fst r = true /\ lot_in id (st_lots (snd r)) = true /\
  st_remote (snd r) id = RFields (Some np).
Proof.
  unfold change_price_writes, change_price.
  destruct (lot_in id (st_lots s)) eqn:Ein; [simpl | discriminate].
  destruct (st_remote s id) as [[old |] | | [|]]; try discriminate.
  destruct (Qleb _ _); [| discriminate]. destruct hs; [| discriminate]. intros _.
  destruct (update_lot id _ _) as [s' |] eqn:E; simpl.
  - apply update_lot_view in E. destruct E as [_ [Hr [Hk _]]].
    rewrite Hk, Hr. simpl. rewrite String.eqb_refl. auto.
  - rewrite String.eqb_refl. auto.
Qed.

Lemma change_price_unchanged now hs id np s :
  lot_in id (st_lots s) = true -> st_remote s id = RFields (Some np) ->
  change_price now hs id np s = (true, s).
Proof.
  intros Ein Er. unfold change_price. rewrite Ein, Er. simpl.
  rewrite round2_diff_self. reflexivity.
Qed.

(** [update_lot_price] writes what its [change_price] call writes, and
    leaves the same view (tracked or not, account answer) of the lot. *)
Lemma update_lot_price_view e now id d s :
  match compute_new_price e d with
  | None => update_lot_price e now id d s = (false, s)
  | Some (sp, np) =>
      let cp := change_price now (env_has_save_lot e) id np s in
      let r := update_lot_price e now id d s in
      st_writes (snd r) = st_writes (snd cp) /\
      lot_in id (st_lots (snd r)) = lot_in id (st_lots (snd cp)) /\
      st_remote (snd r) = st_remote (snd cp) /\
      (fst cp = true -> lot_in id (st_lots (snd cp)) = true -> fst r = true)
  end.
Proof.
  unfold update_lot_price.
  destruct (compute_new_price e d) as [[sp np] |]; [| reflexivity].
  destruct (change_price now (env_has_save_lot e) id np s) as [ok s1]. simpl.
  destruct ok; [| auto].
  destruct (update_lot id _ s1) as [s2 |] eqn:E; simpl.
  - apply update_lot_view in E. destruct E as [Hw [Hr [Hk _]]].
    rewrite Hw, Hr, Hk. auto.
  - split; [reflexivity |]. split; [reflexivity |]. split; [reflexivity |].
    intros _ Hin. unfold update_lot in E. unfold lot_in in Hin.
    destruct (assoc_find id (st_lots s1)); [discriminate | discriminate].
Qed.

(** ** C6: the materiality test *)

(** C6 (counterexample).  No threshold [t] makes "a remote write happens iff
    [|P' - P| >= t]" true of [change_price]: the pairs [(P, P') =
    (1.006, 1.004)] and [(1.003, 1.001)] differ by the same [0.002], the
    first is written (1.01 vs 1.00 after rounding), the second is not. *)
Lemma change_price_no_threshold :
  st_writes (snd (change_price 0 true "1" (1004 # 1000) (state_with_price (1006 # 1000))))
    = [("1"%string, 1004 # 1000)] /\
  change_price 0 true "1" (1001 # 1000) (state_with_price (1003 # 1000))
    = (true, state_with_price (1003 # 1000)) /\
  ~ (exists t, forall old_price new_price,
       st_writes (snd (change_price 0 true "1" new_price (state_with_price old_price))) <> []
       <-> (t <= Qabs' (new_price - old_price))%Q).
Proof.
  split; [vm_compute; reflexivity |].
  split; [vm_compute; reflexivity |].
  intros [t Ht].
  destruct (Ht (1006 # 1000) (1004 # 1000)) as [H1 _].
  destruct (Ht (1003 # 1000) (1001 # 1000)) as [_ H2].
  assert (Hw : st_writes (snd (change_price 0 true "1" (1004 # 1000)
                                 (state_with_price (1006 # 1000)))) <> [])
    by (vm_compute; discriminate).
  specialize (H1 Hw).
  assert (Hsame : Qabs' ((1004 # 1000) - (1006 # 1000)) = Qabs' ((1001 # 1000) - (1003 # 1000)))
    by reflexivity.
  rewrite Hsame in H1. apply H2 in H1. apply H1. vm_compute. reflexivity.
Qed.

(** C6 (amended).  Let the lot be tracked and the account return its
    fields with current price [P].  [change_price] calls [save_lot] with
    [P'] iff [|round(P', 2) - round(P, 2)| >= 0.005] (the prices differ
    in cents) and the account has [save_lot]; below that threshold it
    returns True (unchanged) and changes nothing. *)
Theorem change_price_write_iff_cents_differ (now : Q) (has_save_lot : bool)
  (id : string) (new_price old_price : Q) (s : sync_state) :
  lot_in id (st_lots s) = true ->
  st_remote s id = RFields (Some old_price) ->
  st_writes (snd (change_price now has_save_lot id new_price s)) =
    st_writes s ++
      (if Qleb (1 # 200) (Qabs' (py_round2 new_price - py_round2 old_price)) && has_save_lot
       then [(id, new_price)] else []) /\
  (Qleb (1 # 200) (Qabs' (py_round2 new_price - py_round2 old_price)) = false ->
   change_price now has_save_lot id new_price s = (true, s)).
Proof.
  intros Ein Er. split.
  - rewrite change_price_writes_spec. unfold change_price_writes. rewrite Ein, Er.
    reflexivity.
  - intros Hth. unfold change_price. rewrite Ein, Er. simpl. rewrite Hth. reflexivity.
Qed.

Lemma change_price_write_iff_cents_differ_witness :
  (lot_in "1" (st_lots (state_with_price (1003 # 1000))) = true /\
   st_remote (state_with_price (1003 # 1000)) "1" = RFields (Some (1003 # 1000))) /\
  st_writes (snd (change_price 0 true "1" (1001 # 1000) (state_with_price (1003 # 1000))))
    = [] /\
  change_price 0 true "1" (1001 # 1000) (state_with_price (1003 # 1000))
    = (true, state_with_price (1003 # 1000)).
Proof.
  assert (Hin : lot_in "1" (st_lots (state_with_price (1003 # 1000))) = true)
    by reflexivity.
  assert (Hr : st_remote (state_with_price (1003 # 1000)) "1" = RFields (Some (1003 # 1000)))
    by reflexivity.
  destruct (change_price_write_iff_cents_differ 0 true "1" (1001 # 1000) (1003 # 1000)
              (state_with_price (1003 # 1000)) Hin Hr) as [Hw Hu].
  split; [split; [exact Hin | exact Hr] |].
  split.
  - rewrite Hw. vm_compute. reflexivity.
  - apply Hu. vm_compute. reflexivity.
Defined.

(** ** C7: two synchronisations in a row *)

(** C7 (counterexample).  When the listing already carries the computed
    price (11.32), two calls of [update_lot_price] make no remote write at
    all, not exactly one. *)
Lemma update_lot_price_twice_no_write :
  let s1 := snd (update_lot_price sample_env 0 "1" sample_lot (state_with_price (1132 # 100))) in
  let s2 := snd (update_lot_price sample_env 1 "1" sample_lot s1) in
  st_writes s1 = [] /\ st_writes s2 = [].
Proof. split; vm_compute; reflexivity. Qed.

(** C7 (amended).  Two calls of [update_lot_price] for the same lot with the
    same upstream data (the same [env]: Steam price, rates, settings,
    account) and the listing state left by the first call make at most one
    remote write: the second call writes nothing, and when the first call
    wrote, the second finds the written price and returns True. *)
Theorem update_lot_price_idempotent (e : env) (now now' : Q) (id : string) (d : lot)
  (s0 : sync_state) :
  let r1 := update_lot_price e now id d s0 in
  let r2 := update_lot_price e now' id d (snd r1) in
  st_writes (snd r2) = st_writes (snd r1) /\
  (st_writes (snd r1) = st_writes s0 \/
   exists p, st_writes (snd r1) = st_writes s0 ++ [(id, p)]) /\
  (st_writes (snd r1) <> st_writes s0 -> fst r2 = true).
Proof.
  cbv zeta.
  pose proof (update_lot_price_view e now id d s0) as V1.
  destruct (compute_new_price e d) as [[sp np] |] eqn:Ec.
  - pose proof (change_price_settled now (env_has_save_lot e) id np s0) as S.
    cbv zeta in S.
    destruct (update_lot_price e now id d s0) as [ok1 s1] eqn:U1. simpl in V1 |- *.
    destruct V1 as [W1 [K1 [R1 _]]].
    rewrite <- K1, <- R1 in S.
    pose proof (update_lot_price_view e now' id d s1) as V2. rewrite Ec in V2.
    destruct (update_lot_price e now' id d s1) as [ok2 s2] eqn:U2. simpl in V2 |- *.
    destruct V2 as [W2 [_ [_ F2]]].
    split; [| split].
    + rewrite W2, change_price_writes_spec, S, app_nil_r. reflexivity.
    + rewrite W1, change_price_writes_spec.
      destruct (change_price_writes (env_has_save_lot e) np (lot_in id (st_lots s0))
                  (st_remote s0 id)); [right; eauto | left; apply app_nil_r].
    + intros Hne. rewrite W1, change_price_writes_spec in Hne.
      destruct (change_price_writes (env_has_save_lot e) np (lot_in id (st_lots s0))
                  (st_remote s0 id)) eqn:Ew; [| rewrite app_nil_r in Hne; contradiction].
      destruct (change_price_after_write now (env_has_save_lot e) id np s0 Ew)
        as [_ [Hin Hrm]].
      rewrite <- K1 in Hin. rewrite <- R1 in Hrm.
      rewrite (change_price_unchanged now' (env_has_save_lot e) id np s1 Hin Hrm) in F2.
      apply F2; [reflexivity | exact Hin].
  - rewrite V1. simpl.
    pose proof (update_lot_price_view e now' id d s0) as V2. rewrite Ec in V2.
    rewrite V2. simpl. split; [reflexivity |]. split; [left; reflexivity |].
    intros H. contradiction H. reflexivity.
Qed.

(** ** Scheduler lemmas *)

Lemma process_lots_invariant (e : env) (now : Q) (n0 : nat)
  (Inv : last_check -> list (string * last_check) -> Prop) :
  (forall id lc trace, Inv lc trace ->
     Qltb (now - match assoc_find id lc with Some t => t | None => 0%Q end)
          (time_interval (env_settings e)) = false ->
     String.eqb id "0" = false ->
     Inv (assoc_put id now lc) (trace ++ [(id, assoc_put id now lc)])) ->
  forall items lc s any trace, Inv lc trace ->
  let r := process_lots e now n0 items lc s any trace in
  Inv (lr_last_check r) (lr_trace r).
Proof.
  intros Hstep items. induction items as [| [id d] rest IH]; intros lc s any trace Hinv;
    simpl; [exact Hinv |].
  destruct (String.eqb id "0" || negb (on d)) eqn:Eskip; [apply IH, Hinv |].
  destruct (Qltb _ _) eqn:Edue; [apply IH, Hinv |].
  apply orb_false_iff in Eskip. destruct Eskip as [E0 _].
  specialize (Hstep id lc trace Hinv Edue E0).
  destruct (update_lot_price e now id d s) as [ok s'].
  destruct (Nat.eqb _ _); [apply IH, Hstep | exact Hstep].
Qed.

Lemma scheduler_cycle_views e now lc s :
  lr_trace (scheduler_cycle e now lc s) =
    lr_trace (process_lots e now (List.length (st_lots s)) (st_lots s) lc s false []) /\
  lr_last_check (scheduler_cycle e now lc s) =
    lr_last_check (process_lots e now (List.length (st_lots s)) (st_lots s) lc s false []).
Proof.
  unfold scheduler_cycle.
  destruct (lr_any _ && negb (lr_aborted _)); split; reflexivity.
Qed.

Lemma In_map_fst_app (id : string) (trace : list (string * last_check)) x lc :
  In id (map fst (trace ++ [(x, lc)])) <-> In id (map fst trace) \/ id = x.
Proof.
  rewrite map_app, in_app_iff. simpl. intuition.
Qed.

(** ** C10: lot "0" is never processed *)

(** C10.  In every scheduler pass, whatever the lots, their [on] flags and
    the last-check times, [update_lot_price] is never called for the lot id
    ["0"] and its last-check entry is left as it was. *)
Theorem scheduler_cycle_skips_lot_zero (e : env) (now : Q) (lc : last_check)
  (s : sync_state) :
  ~ In "0"%string (map fst (lr_trace (scheduler_cycle e now lc s))) /\
  assoc_find "0" (lr_last_check (scheduler_cycle e now lc s)) = assoc_find "0" lc.
Proof.
  destruct (scheduler_cycle_views e now lc s) as [-> ->].
  apply (process_lots_invariant e now (List.length (st_lots s))
           (fun lc' trace => ~ In "0"%string (map fst trace) /\
                             assoc_find "0" lc' = assoc_find "0" lc)).
  - intros id lc' trace [Hn Hf] _ E0. split.
    + rewrite In_map_fst_app. intros [H | H]; [exact (Hn H) |].
      subst id. rewrite String.eqb_refl in E0. discriminate.
    + rewrite assoc_find_put_other; [exact Hf |]. rewrite String.eqb_sym. exact E0.
  - split; [intros [] | reflexivity].
Qed.

(** ** C8: the last-check time is recorded before the sync *)

(** C8.  In a scheduler pass at time [now] (the pass's [current_time]):
    when [update_lot_price] is called for a lot, the last-check dict
    already maps that lot to [now]; after the pass (finished or stopped by
    an exception) every processed lot is still mapped to [now]; so a later
    pass at [now2] with [now2 - now] below the update interval does not
    process any of them again, however the syncs went. *)
Theorem scheduler_cycle_marks_before_sync (e : env) (now : Q) (lc : last_check)
  (s : sync_state) :
  (forall id lc_at_call, In (id, lc_at_call) (lr_trace (scheduler_cycle e now lc s)) ->
     assoc_find id lc_at_call = Some now) /\
  (forall id, In id (map fst (lr_trace (scheduler_cycle e now lc s))) ->
     assoc_find id (lr_last_check (scheduler_cycle e now lc s)) = Some now) /\
  (forall now2 s2, Qltb (now2 - now) (time_interval (env_settings e)) = true ->
     forall id, In id (map fst (lr_trace (scheduler_cycle e now lc s))) ->
     ~ In id (map fst (lr_trace (scheduler_cycle e now2
                                   (lr_last_check (scheduler_cycle e now lc s)) s2)))).
Proof.
  assert (Hb : forall id, In id (map fst (lr_trace (scheduler_cycle e now lc s))) ->
             assoc_find id (lr_last_check (scheduler_cycle e now lc s)) = Some now).
  { destruct (scheduler_cycle_views e now lc s) as [-> ->].
    apply (process_lots_invariant e now (List.length (st_lots s))
             (fun lc' trace => forall id, In id (map fst trace) ->
                               assoc_find id lc' = Some now)).
    - intros id lc' trace Hinv _ _ k Hk. rewrite In_map_fst_app in Hk.
      destruct (String.eqb k id) eqn:Ek.
      + apply String.eqb_eq in Ek. subst k. apply assoc_find_put_same.
      + rewrite assoc_find_put_other by exact Ek.
        destruct Hk as [Hk | Hk]; [exact (Hinv k Hk) |].
        subst k. rewrite String.eqb_refl in Ek. discriminate.
    - intros id []. }
  split; [| split; [exact Hb |]].
  - destruct (scheduler_cycle_views e now lc s) as [-> _].
    apply (process_lots_invariant e now (List.length (st_lots s))
             (fun _ trace => forall id l, In (id, l) trace -> assoc_find id l = Some now)).
    + intros id lc' trace Hinv _ _ k l Hk. apply in_app_iff in Hk.
      destruct Hk as [Hk | [Hk | []]]; [exact (Hinv k l Hk) |].
      inversion Hk; subst. apply assoc_find_put_same.
    + intros id l [].
  - intros now2 s2 Hlt id Hid.
    specialize (Hb id Hid).
    set (lc1 := lr_last_check (scheduler_cycle e now lc s)) in *.
    destruct (scheduler_cycle_views e now2 lc1 s2) as [-> _].
    enough (H : assoc_find id
                  (lr_last_check (process_lots e now2 (List.length (st_lots s2)) (st_lots s2)
                                    lc1 s2 false [])) = Some now /\
                ~ In id (map fst (lr_trace (process_lots e now2 (List.length (st_lots s2))
                                              (st_lots s2) lc1 s2 false []))))
      by exact (proj2 H).
    apply (process_lots_invariant e now2 (List.length (st_lots s2))
             (fun lc' trace => assoc_find id lc' = Some now /\ ~ In id (map fst trace))).
    + intros k lc' trace [Hf Hn] Hdue _.
      destruct (String.eqb id k) eqn:Ek.
      * apply String.eqb_eq in Ek. subst k. rewrite Hf in Hdue. congruence.
      * split.
        -- rewrite assoc_find_put_other by exact Ek. exact Hf.
        -- rewrite In_map_fst_app. intros [H | H]; [exact (Hn H) |].
           subst k. rewrite String.eqb_refl in Ek. discriminate.
    + split; [exact Hb | intros []].
Qed.

Lemma scheduler_cycle_marks_before_sync_witness :
  In "1"%string (map fst (lr_trace (scheduler_cycle sample_env 100000 [] (state_with_price 5)))) /\
  Qltb (100300 - 100000) (time_interval (env_settings sample_env)) = true /\
  ~ In "1"%string
      (map fst (lr_trace (scheduler_cycle sample_env 100300
                            (lr_last_check (scheduler_cycle sample_env 100000 []
                                              (state_with_price 5)))
                            (lr_state (scheduler_cycle sample_env 100000 []
                                         (state_with_price 5)))))).
Proof.
  assert (Hin : In "1"%string
                  (map fst (lr_trace (scheduler_cycle sample_env 100000 [] (state_with_price 5)))))
    by (vm_compute; left; reflexivity).
  assert (Hlt : Qltb (100300 - 100000) (time_interval (env_settings sample_env)) = true)
    by (vm_compute; reflexivity).
  split; [exact Hin |]. split; [exact Hlt |].
  exact (proj2 (proj2 (scheduler_cycle_marks_before_sync sample_env 100000 []
                         (state_with_price 5)))
           100300%Q (lr_state (scheduler_cycle sample_env 100000 [] (state_with_price 5)))
           Hlt "1"%string Hin).
Defined.

(* ======================================================================= *)
(** * Further properties of the plugin *)

(** ** Association-list lemmas *)

Lemma Qltb_true (a b : Q) : Qltb a b = true <-> (a < b)%Q.
Proof.
  unfold Qltb. destruct (Qle_bool b a) eqn:E; simpl.
  - apply Qle_bool_iff in E. split; [discriminate | intros H; exfalso; apply (Qlt_not_le _ _ H E)].
  - apply Qle_bool_false in E. split; [intros _; exact E | reflexivity].
Qed.

Lemma Qltb_false (a b : Q) : Qltb a b = false <-> (b <= a)%Q.
Proof.
  unfold Qltb. destruct (Qle_bool b a) eqn:E; simpl.
  - apply Qle_bool_iff in E. split; [intros _; exact E | reflexivity].
  - apply Qle_bool_false in E. split; [discriminate | intros H; exfalso; apply (Qlt_not_le _ _ E H)].
Qed.

Lemma assoc_remove_filter {A} k (l : list (string * A)) :
  assoc_remove k l = filter (fun kv => negb (String.eqb k (fst kv))) l.
Proof.
  induction l as [| [k' v'] l IH]; simpl; [reflexivity |].
  destruct (String.eqb k k'); simpl; rewrite IH; reflexivity.
Qed.

Lemma assoc_remove_absent {A} k (l : list (string * A)) :
  ~ In k (map fst l) -> assoc_remove k l = l.
Proof.
  induction l as [| [k' v'] l IH]; simpl; intros H; [reflexivity |].
  destruct (String.eqb k k') eqn:E.
  - apply String.eqb_eq in E. subst. exfalso. apply H. left. reflexivity.
  - rewrite IH; [reflexivity | intros H'; apply H; right; exact H'].
Qed.

Lemma assoc_remove_length {A} k (l : list (string * A)) :
  NoDup (map fst l) -> In k (map fst l) -> S (List.length (assoc_remove k l)) = List.length l.
Proof.
  induction l as [| [k' v'] l IH]; simpl; intros Hnd Hin; [contradiction |].
  inversion Hnd as [| x xs Hnot Hnd']; subst.
  destruct (String.eqb k k') eqn:E.
  - apply String.eqb_eq in E. subst. rewrite assoc_remove_absent by exact Hnot. reflexivity.
  - destruct Hin as [Hin | Hin].
    + subst. rewrite String.eqb_refl in E. discriminate.
    + simpl. rewrite IH; auto.
Qed.

Lemma In_map_fst_remove {A} k k' (l : list (string * A)) :
  In k' (map fst (assoc_remove k l)) <-> In k' (map fst l) /\ k' <> k.
Proof.
  rewrite assoc_remove_filter. induction l as [| [k1 v1] l IH]; simpl; [tauto |].
  destruct (String.eqb k k1) eqn:E; simpl.
  - apply String.eqb_eq in E. subst. rewrite IH. intuition congruence.
  - apply String.eqb_neq in E. rewrite IH. intuition congruence.
Qed.

Lemma NoDup_remove_keys {A} k (l : list (string * A)) :
  NoDup (map fst l) -> NoDup (map fst (assoc_remove k l)).
Proof.
  rewrite assoc_remove_filter. induction l as [| [k1 v1] l IH]; simpl; intros H; [constructor |].
  inversion H as [| x xs Hnot Hnd]; subst.
  destruct (negb (String.eqb k k1)); simpl; [| auto].
  constructor; [| auto].
  intros Hin. apply Hnot. apply in_map_iff in Hin as [[a b] [Ea Hab]].
  apply filter_In in Hab as [Hab _]. simpl in Ea. subst. apply in_map_iff.
  exists (k1, b). auto.
Qed.

Lemma In_map_fst_put {A} k v k' (l : list (string * A)) :
  In k' (map fst (assoc_put k v l)) <-> In k' (map fst l) \/ k' = k.
Proof.
  induction l as [| [k1 v1] l IH]; simpl.
  - intuition.
  - destruct (String.eqb k k1) eqn:E; simpl.
    + apply String.eqb_eq in E. subst. intuition.
    + rewrite IH. intuition.
Qed.

Lemma NoDup_put {A} k v (l : list (string * A)) :
  NoDup (map fst l) -> NoDup (map fst (assoc_put k v l)).
Proof.
  induction l as [| [k1 v1] l IH]; simpl; intros H.
  - constructor; [intros [] | constructor].
  - inversion H as [| x xs Hnot Hnd]; subst.
    destruct (String.eqb k k1) eqn:E; simpl.
    + apply String.eqb_eq in E. subst. constructor; assumption.
    + constructor; [| auto]. rewrite In_map_fst_put. intros [H1 | H1]; [contradiction |].
      subst. rewrite String.eqb_refl in E. discriminate.
Qed.

Lemma assoc_put_length {A} k v (l : list (string * A)) :
  (List.length (assoc_put k v l) <= S (List.length l))%nat /\
  (In k (map fst l) -> List.length (assoc_put k v l) = List.length l).
Proof.
  induction l as [| [k1 v1] l IH]; simpl.
  - split; [lia | intros []].
  - destruct (String.eqb k k1) eqn:E; simpl.
    + split; [lia | reflexivity].
    + destruct IH as [IH1 IH2]. split; [lia |].
      intros [H | H]; [subst; rewrite String.eqb_refl in E; discriminate |].
      rewrite IH2; auto.
Qed.

Lemma assoc_put_same_find {A} k v (l : list (string * A)) :
  assoc_find k l = Some v -> assoc_put k v l = l.
Proof.
  induction l as [| [k1 v1] l IH]; simpl; [discriminate |].
  destruct (String.eqb k k1) eqn:E.
  - intros H. inversion H; subst. apply String.eqb_eq in E. subst. reflexivity.
  - intros H. rewrite IH; auto.
Qed.

Lemma assoc_put_put {A} k v w (l : list (string * A)) :
  assoc_put k w (assoc_put k v l) = assoc_put k w l.
Proof.
  induction l as [| [k1 v1] l IH]; simpl.
  - rewrite String.eqb_refl. reflexivity.
  - destruct (String.eqb k k1) eqn:E; simpl.
    + rewrite String.eqb_refl. reflexivity.
    + rewrite E, IH. reflexivity.
Qed.

Lemma assoc_find_remove_other {A} k k2 (l : list (string * A)) :
  String.eqb k2 k = false -> assoc_find k2 (assoc_remove k l) = assoc_find k2 l.
Proof.
  intros Hne. induction l as [| [k' v'] l IH]; simpl; [reflexivity |].
  destruct (String.eqb k k') eqn:E.
  - apply String.eqb_eq in E. subst. rewrite Hne. exact IH.
  - simpl. destruct (String.eqb k2 k'); [reflexivity | exact IH].
Qed.

Lemma NoDup_find_In {A} k v (l : list (string * A)) :
  NoDup (map fst l) -> In (k, v) l -> assoc_find k l = Some v.
Proof.
  induction l as [| [k1 v1] l IH]; simpl; intros Hnd Hin; [contradiction |].
  inversion Hnd as [| x xs Hnot Hnd']; subst.
  destruct Hin as [Hin | Hin].
  - inversion Hin; subst. rewrite String.eqb_refl. reflexivity.
  - destruct (String.eqb k k1) eqn:E.
    + apply String.eqb_eq in E. subst. exfalso. apply Hnot.
      apply in_map_iff. exists (k1, v). auto.
    + auto.
Qed.

(** ** Cache lemmas *)

Lemma remove_keys_filter (ks : list string) (c : cache) :
  remove_keys ks c =
  filter (fun kv => negb (existsb (fun k => String.eqb k (fst kv)) ks)) c.
Proof.
  unfold remove_keys. revert c. induction ks as [| k ks IH]; intros c; simpl.
  - induction c as [| x c IHc]; simpl; [reflexivity | rewrite <- IHc; reflexivity].
  - rewrite IH, assoc_remove_filter.
    clear IH. induction c as [| [k' e] c IHc]; simpl; [reflexivity |].
    destruct (String.eqb k k') eqn:E1; simpl; [exact IHc |].
    destruct (existsb (fun k0 => String.eqb k0 k') ks); simpl; rewrite IHc; reflexivity.
Qed.

Lemma oldest_key_In (l : cache) k t : In (oldest_key (k, t) l) (k :: map fst l).
Proof.
  revert k t. induction l as [| [k' e] l IH]; intros k t; simpl; [left; reflexivity |].
  destruct (Qltb (entry_timestamp e) t).
  - specialize (IH k' (entry_timestamp e)). simpl in IH. tauto.
  - specialize (IH k t). simpl in IH. tauto.
Qed.

Lemma evict_oldest_length (c : cache) :
  NoDup (map fst c) -> c <> [] ->
  S (List.length (evict_oldest c)) = List.length c /\ NoDup (map fst (evict_oldest c)).
Proof.
  destruct c as [| [k e] l]; [congruence |]. intros Hnd _. unfold evict_oldest. split.
  - apply assoc_remove_length; [exact Hnd | apply oldest_key_In].
  - apply NoDup_remove_keys. exact Hnd.
Qed.

Lemma oldest_key_spec (l : cache) (kb : string) (tb : Q) :
  exists t,
    ((oldest_key (kb, tb) l = kb /\ t = tb) \/
     exists e, In (oldest_key (kb, tb) l, e) l /\ entry_timestamp e = t) /\
    (t <= tb)%Q /\ forall k' e', In (k', e') l -> (t <= entry_timestamp e')%Q.
Proof.
  revert kb tb. induction l as [| [k e] l IH]; intros kb tb; simpl.
  - exists tb. split; [left; auto | split; [apply Qle_refl | intros ? ? []]].
  - destruct (Qltb (entry_timestamp e) tb) eqn:E.
    + apply Qltb_true in E. destruct (IH k (entry_timestamp e)) as [t [H1 [H2 H3]]].
      exists t. split; [| split].
      * destruct H1 as [[Ek Et] | [e' [Hin Ht]]].
        -- right. exists e. rewrite Ek. split; [left; reflexivity | symmetry; exact Et].
        -- right. exists e'. split; [right; exact Hin | exact Ht].
      * apply Qle_trans with (entry_timestamp e); [exact H2 | apply Qlt_le_weak; exact E].
      * intros k' e' [Heq | Hin]; [inversion Heq; subst; exact H2 | apply H3 with k'; exact Hin].
    + apply Qltb_false in E. destruct (IH kb tb) as [t [H1 [H2 H3]]].
      exists t. split; [| split; [exact H2 |]].
      * destruct H1 as [H1 | [e' [Hin Ht]]]; [left; exact H1 |].
        right. exists e'. split; [right; exact Hin | exact Ht].
      * intros k' e' [Heq | Hin].
        -- inversion Heq; subst. apply Qle_trans with tb; assumption.
        -- apply H3 with k'. exact Hin.
Qed.

Lemma assoc_remove_split {A} (l1 l2 : list (string * A)) k v :
  NoDup (map fst (l1 ++ (k, v) :: l2)) -> assoc_remove k (l1 ++ (k, v) :: l2) = l1 ++ l2.
Proof.
  induction l1 as [| [k1 v1] l1 IH]; simpl; intros Hnd.
  - inversion Hnd as [| x xs Hnot _]; subst.
    rewrite String.eqb_refl. apply assoc_remove_absent. exact Hnot.
  - inversion Hnd as [| x xs Hnot Hnd']; subst.
    destruct (String.eqb k k1) eqn:E.
    + apply String.eqb_eq in E. subst. exfalso. apply Hnot.
      rewrite map_app. apply in_or_app. right. left. reflexivity.
    + rewrite IH by exact Hnd'. reflexivity.
Qed.

(** The scan of [min]: either the running best stays, or the result is the
    first entry of [l] below the running best and below every entry before
    it, and no entry after it is below it. *)
Lemma oldest_key_split (l : cache) (kb : string) (tb : Q) :
  (oldest_key (kb, tb) l = kb /\ forall k' e', In (k', e') l -> (tb <= entry_timestamp e')%Q) \/
  exists l1 k e l2, l = l1 ++ (k, e) :: l2 /\ oldest_key (kb, tb) l = k /\
    (entry_timestamp e < tb)%Q /\
    (forall k' e', In (k', e') l1 -> (entry_timestamp e < entry_timestamp e')%Q) /\
    (forall k' e', In (k', e') l2 -> (entry_timestamp e <= entry_timestamp e')%Q).
Proof.
  revert kb tb. induction l as [| [k e] l IH]; intros kb tb; simpl.
  - left. split; [reflexivity | intros ? ? []].
  - destruct (Qltb (entry_timestamp e) tb) eqn:E.
    + apply Qltb_true in E. right.
      destruct (IH k (entry_timestamp e)) as [[Hk Hall] | [l1 [k2 [e2 [l2 [Hl [Hk [Hlt [H1 H2]]]]]]]]].
      * exists [], k, e, l. split; [reflexivity |]. split; [exact Hk |].
        split; [exact E |]. split; [intros ? ? [] | exact Hall].
      * exists ((k, e) :: l1), k2, e2, l2. split; [rewrite Hl; reflexivity |].
        split; [exact Hk |]. split; [apply Qlt_trans with (entry_timestamp e); assumption |].
        split; [| exact H2].
        intros k' e' [Heq | Hin]; [inversion Heq; subst; exact Hlt | apply H1 with k'; exact Hin].
    + apply Qltb_false in E.
      destruct (IH kb tb) as [[Hk Hall] | [l1 [k2 [e2 [l2 [Hl [Hk [Hlt [H1 H2]]]]]]]]].
      * left. split; [exact Hk |].
        intros k' e' [Heq | Hin]; [inversion Heq; subst; exact E | apply Hall with k'; exact Hin].
      * right. exists ((k, e) :: l1), k2, e2, l2. split; [rewrite Hl; reflexivity |].
        split; [exact Hk |]. split; [exact Hlt |]. split; [| exact H2].
        intros k' e' [Heq | Hin].
        -- inversion Heq; subst. apply Qlt_le_trans with tb; assumption.
        -- apply H1 with k'. exact Hin.
Qed.

(** [_evict_oldest] on a cache with distinct keys drops exactly the first
    entry of least timestamp. *)
Lemma evict_oldest_split (c : cache) :
  NoDup (map fst c) -> c <> [] ->
  exists l1 k e l2, c = l1 ++ (k, e) :: l2 /\
    (forall k' e', In (k', e') l1 -> (entry_timestamp e < entry_timestamp e')%Q) /\
    (forall k' e', In (k', e') l2 -> (entry_timestamp e <= entry_timestamp e')%Q) /\
    evict_oldest c = l1 ++ l2.
Proof.
  destruct c as [| [k0 e0] l]; [congruence |]. intros Hnd _. unfold evict_oldest.
  destruct (oldest_key_split l k0 (entry_timestamp e0))
    as [[Hk Hall] | [l1 [k [e [l2 [Hl [Hk [Hlt [H1 H2]]]]]]]]].
  - exists [], k0, e0, l. split; [reflexivity |]. split; [intros ? ? [] |].
    split; [exact Hall |]. rewrite Hk. apply (assoc_remove_split [] l k0 e0). exact Hnd.
  - exists ((k0, e0) :: l1), k, e, l2. rewrite Hk, Hl.
    split; [reflexivity |]. split.
    + intros k' e' [Heq | Hin]; [inversion Heq; subst; exact Hlt | apply H1 with k'; exact Hin].
    + split; [exact H2 |]. apply (assoc_remove_split ((k0, e0) :: l1) l2 k e).
      rewrite Hl in Hnd. exact Hnd.
Qed.

Lemma existsb_filter_keys (p : string -> bool) (c : cache) kv :
  In kv c -> existsb (fun k => String.eqb k (fst kv)) (filter p (map fst c)) = p (fst kv).
Proof.
  intros Hin. destruct (p (fst kv)) eqn:Ep.
  - apply existsb_exists. exists (fst kv). split; [| apply String.eqb_refl].
    apply filter_In. split; [apply in_map; exact Hin | exact Ep].
  - apply Bool.not_true_iff_false. intros H. apply existsb_exists in H as [k [Hk Ek]].
    apply filter_In in Hk as [_ Hpk]. apply String.eqb_eq in Ek. subst. congruence.
Qed.

Lemma filter_keys_count (p : string -> bool) (c : cache) :
  (List.length (filter p (map fst c)) + List.length (filter (fun kv => negb (p (fst kv))) c)
   = List.length c)%nat.
Proof.
  induction c as [| [k e] c IH]; simpl; [reflexivity |].
  destruct (p k); simpl; lia.
Qed.

Lemma prefix_append (s t : string) : String.prefix s (String.append s t) = true.
Proof.
  induction s as [| a s IH]; simpl; [destruct t; reflexivity |].
  destruct (ascii_dec a a) as [_ | H]; [exact IH | exfalso; apply H; reflexivity].
Qed.

Lemma str_contains_unfold (p s : string) :
  str_contains p s =
  String.prefix p s || match s with EmptyString => false | String _ s' => str_contains p s' end.
Proof. destruct s; reflexivity. Qed.

Lemma str_contains_append (s t : string) : str_contains s (String.append s t) = true.
Proof.
  rewrite str_contains_unfold, prefix_append. reflexivity.
Qed.

Lemma clear_by_pattern_snd (pattern : string) (c : cache) :
  snd (clear_by_pattern pattern c) = filter (fun kv => negb (str_contains pattern (fst kv))) c.
Proof.
  unfold clear_by_pattern. simpl. rewrite remove_keys_filter.
  apply filter_ext_in. intros kv Hin. rewrite existsb_filter_keys by exact Hin. reflexivity.
Qed.

(** ** [UnifiedCacheManager] *)

(** Extra.  [CACHE.set(key, v)] at time [now] followed by [CACHE.get(key)]
    at time [t]: while the age [t - now] is below the TTL the get returns
    [v] and leaves the cache as it is; once the age reaches the TTL the get
    misses and the key is gone from the cache. *)
Theorem cache_set_then_get (now t : Q) (k : string) (v : cache_value) (c : cache) :
  (Qltb (t - now) CACHE_TTL = true ->
     cache_get t k (cache_set now k v c) = (Some v, cache_set now k v c)) /\
  (Qltb (t - now) CACHE_TTL = false ->
     fst (cache_get t k (cache_set now k v c)) = None /\
     assoc_find k (snd (cache_get t k (cache_set now k v c))) = None).
Proof.
  set (c1 := cache_set now k v c).
  assert (Hf : assoc_find k c1 = Some (mkEntry v now))
    by (unfold c1, cache_set; apply assoc_find_put_same).
  unfold cache_get. rewrite Hf. cbn [entry_timestamp entry_value].
  split; intros H; rewrite H; [reflexivity |].
  split; [reflexivity | apply assoc_find_remove_same].
Qed.

Lemma cache_set_then_get_witness :
  cache_get 100 "k" (cache_set 0 "k" (CPrice 5) []) = (Some (CPrice 5), cache_set 0 "k" (CPrice 5) []) /\
  fst (cache_get 4000 "k" (cache_set 0 "k" (CPrice 5) [])) = None.
Proof.
  split.
  - apply (proj1 (cache_set_then_get 0 100 "k" (CPrice 5) [])). vm_compute. reflexivity.
  - apply (proj2 (cache_set_then_get 0 4000 "k" (CPrice 5) [])). vm_compute. reflexivity.
Defined.

Lemma keys_distinct_NoDup (l : list string) : keys_distinct l = true -> NoDup l.
Proof.
  induction l as [| k l IH]; simpl; intros H; [constructor |].
  apply andb_prop in H as [Hk Hl]. constructor; [| exact (IH Hl)].
  intros Hin. apply negb_true_iff in Hk.
  assert (Hex : existsb (String.eqb k) l = true)
    by (apply existsb_exists; exists k; split; [exact Hin | apply String.eqb_refl]).
  congruence.
Qed.

(** Extra.  [UnifiedCacheManager.set] on a cache with distinct keys and at
    most [MAX_CACHE_SIZE] entries keeps the keys distinct and the size at
    most [MAX_CACHE_SIZE].  Below the bound it only writes the entry; at
    the bound it first drops the oldest entry (the first one of least
    timestamp, the others kept in order) and then writes the entry. *)
Theorem cache_set_bounded (now : Q) (k : string) (v : cache_value) (c : cache) :
  NoDup (map fst c) -> (List.length c <= MAX_CACHE_SIZE)%nat ->
  NoDup (map fst (cache_set now k v c)) /\
  (List.length (cache_set now k v c) <= MAX_CACHE_SIZE)%nat /\
  ((List.length c < MAX_CACHE_SIZE)%nat ->
     cache_set now k v c = assoc_put k (mkEntry v now) c) /\
  (List.length c = MAX_CACHE_SIZE ->
     exists l1 k0 e0 l2, c = l1 ++ (k0, e0) :: l2 /\
       (forall k' e', In (k', e') l1 -> (entry_timestamp e0 < entry_timestamp e')%Q) /\
       (forall k' e', In (k', e') l2 -> (entry_timestamp e0 <= entry_timestamp e')%Q) /\
       cache_set now k v c = assoc_put k (mkEntry v now) (l1 ++ l2)).
Proof.
  intros Hnd Hlen. unfold cache_set.
  destruct (Nat.leb MAX_CACHE_SIZE (List.length c)) eqn:E.
  - apply Nat.leb_le in E.
    assert (Hne : c <> []).
    { intros ->. simpl in E. unfold MAX_CACHE_SIZE in E. lia. }
    destruct (evict_oldest_length c Hnd Hne) as [Hl Hn].
    split; [apply NoDup_put; exact Hn |].
    split; [pose proof (proj1 (assoc_put_length k (mkEntry v now) (evict_oldest c))); lia |].
    split; [intros Hlt; lia |].
    intros _. destruct (evict_oldest_split c Hnd Hne) as [l1 [k0 [e0 [l2 [Hc [H1 [H2 Hev]]]]]]].
    exists l1, k0, e0, l2. rewrite Hev. auto.
  - apply Nat.leb_gt in E. split; [apply NoDup_put; exact Hnd |].
    split; [pose proof (proj1 (assoc_put_length k (mkEntry v now) c)); lia |].
    split; [reflexivity | intros Heq; lia].
Qed.

(** A full cache: the set takes the eviction branch. *)
Lemma cache_set_bounded_witness :
  NoDup (map fst full_cache) /\ (List.length full_cache <= MAX_CACHE_SIZE)%nat /\
  List.length full_cache = MAX_CACHE_SIZE /\
  exists l1 k0 e0 l2, full_cache = l1 ++ (k0, e0) :: l2 /\
    (forall k' e', In (k', e') l1 -> (entry_timestamp e0 < entry_timestamp e')%Q) /\
    (forall k' e', In (k', e') l2 -> (entry_timestamp e0 <= entry_timestamp e')%Q) /\
    cache_set 0 "new" (CPrice 2) full_cache = assoc_put "new" (mkEntry (CPrice 2) 0) (l1 ++ l2).
Proof.
  assert (H1 : NoDup (map fst full_cache))
    by (apply keys_distinct_NoDup; vm_compute; reflexivity).
  assert (H3 : List.length full_cache = MAX_CACHE_SIZE) by (vm_compute; reflexivity).
  assert (H2 : (List.length full_cache <= MAX_CACHE_SIZE)%nat) by (rewrite H3; lia).
  split; [exact H1 |]. split; [exact H2 |]. split; [exact H3 |].
  exact (proj2 (proj2 (proj2 (cache_set_bounded 0 "new" (CPrice 2) full_cache H1 H2))) H3).
Defined.

(** Extra.  [_evict_oldest] on a non-empty cache with distinct keys removes
    exactly one entry: the first one of least timestamp (every entry before
    it is strictly newer, none after it is older).  The other entries keep
    their order. *)
Theorem evict_oldest_removes_oldest (c : cache) :
  NoDup (map fst c) -> c <> [] ->
  exists l1 k e l2, c = l1 ++ (k, e) :: l2 /\
    (forall k' e', In (k', e') l1 -> (entry_timestamp e < entry_timestamp e')%Q) /\
    (forall k' e', In (k', e') l2 -> (entry_timestamp e <= entry_timestamp e')%Q) /\
    evict_oldest c = l1 ++ l2 /\
    S (List.length (evict_oldest c)) = List.length c.
Proof.
  intros Hnd Hne.
  destruct (evict_oldest_split c Hnd Hne) as [l1 [k [e [l2 [Hc [H1 [H2 Hev]]]]]]].
  exists l1, k, e, l2. split; [exact Hc |]. split; [exact H1 |]. split; [exact H2 |].
  split; [exact Hev |]. rewrite Hev, Hc, !length_app. simpl. lia.
Qed.

(** Of the two entries of timestamp 3, the first ("b") goes. *)
Lemma evict_oldest_removes_oldest_witness :
  NoDup (map fst tied_cache) /\ tied_cache <> [] /\
  (exists l1 k e l2, tied_cache = l1 ++ (k, e) :: l2 /\
    (forall k' e', In (k', e') l1 -> (entry_timestamp e < entry_timestamp e')%Q) /\
    (forall k' e', In (k', e') l2 -> (entry_timestamp e <= entry_timestamp e')%Q) /\
    evict_oldest tied_cache = l1 ++ l2 /\
    S (List.length (evict_oldest tied_cache)) = List.length tied_cache) /\
  map fst (evict_oldest tied_cache) = ["a"; "c"; "d"]%string.
Proof.
  assert (H1 : NoDup (map fst tied_cache))
    by (apply keys_distinct_NoDup; vm_compute; reflexivity).
  assert (H2 : tied_cache <> []) by discriminate.
  split; [exact H1 |]. split; [exact H2 |].
  split; [exact (evict_oldest_removes_oldest tied_cache H1 H2) | vm_compute; reflexivity].
Defined.

(** Extra.  [clear_by_pattern(pattern)] removes exactly the entries whose
    key contains [pattern], keeps the others in their order, and returns
    the number of entries it removed. *)
Theorem clear_by_pattern_spec (pattern : string) (c : cache) :
  snd (clear_by_pattern pattern c) = filter (fun kv => negb (str_contains pattern (fst kv))) c /\
  (fst (clear_by_pattern pattern c) + List.length (snd (clear_by_pattern pattern c))
   = List.length c)%nat.
Proof.
  split; [apply clear_by_pattern_snd |]. rewrite clear_by_pattern_snd.
  unfold clear_by_pattern. simpl. apply filter_keys_count.
Qed.

(** Extra.  After [clear_currency_cache()], no currency has a cached rate,
    so [_get_fallback_rate] falls back to the static table for every
    currency, whatever was cached before. *)
Theorem clear_currency_cache_forgets_rates (c : cache) (now : Q) (cur : string) :
  assoc_find (rate_key cur) (snd (clear_currency_cache c)) = None /\
  fst (_get_fallback_rate now cur (snd (clear_currency_cache c))) = Ret (static_rate cur).
Proof.
  assert (H : assoc_find (rate_key cur) (snd (clear_currency_cache c)) = None).
  { unfold clear_currency_cache. rewrite clear_by_pattern_snd.
    induction c as [| [k e] c IH]; [reflexivity |]. cbn [filter fst].
    destruct (str_contains "currency_rate_" k) eqn:Ek; cbn [negb]; [exact IH |].
    cbn [assoc_find].
    destruct (String.eqb (rate_key cur) k) eqn:E; [| exact IH].
    apply String.eqb_eq in E. subst k. unfold rate_key in Ek.
    rewrite str_contains_append in Ek. discriminate. }
  split; [exact H |].
  unfold _get_fallback_rate, mbind, mget, cache_get. rewrite H. reflexivity.
Qed.

Lemma NoDup_same_key {A} (l : list (string * A)) k v w :
  NoDup (map fst l) -> In (k, v) l -> In (k, w) l -> v = w.
Proof.
  intros Hnd H1 H2.
  pose proof (NoDup_find_In k v l Hnd H1). pose proof (NoDup_find_In k w l Hnd H2). congruence.
Qed.

(** Extra.  [clear_expired()] (run by [cleanup_resources]) keeps exactly
    the entries younger than the TTL, in their order, and drops every
    entry whose age has reached it. *)
Theorem clear_expired_keeps_fresh (now : Q) (c : cache) :
  NoDup (map fst c) ->
  clear_expired now c = filter (fun kv => Qltb (now - entry_timestamp (snd kv)) CACHE_TTL) c.
Proof.
  intros Hnd. unfold clear_expired. rewrite remove_keys_filter. apply filter_ext_in.
  intros [k e] Hin. cbn [fst snd].
  destruct (Qltb (now - entry_timestamp e) CACHE_TTL) eqn:E.
  - apply Bool.negb_true_iff, Bool.not_true_iff_false. intros H.
    apply existsb_exists in H as [k' [Hk' Ek']]. apply String.eqb_eq in Ek'. subst k'.
    apply in_map_iff in Hk' as [[k2 e2] [Ek2 Hin2]]. cbn [fst] in Ek2. subst k2.
    apply filter_In in Hin2 as [Hin2 Hexp]. cbn [snd] in Hexp.
    rewrite (NoDup_same_key c k e2 e Hnd Hin2 Hin) in Hexp.
    unfold Qltb, Qleb in *. rewrite Hexp in E. discriminate.
  - apply Bool.negb_false_iff. apply existsb_exists. exists k.
    split; [| apply String.eqb_refl]. apply in_map_iff. exists (k, e). split; [reflexivity |].
    apply filter_In. split; [exact Hin |]. cbn [snd].
    unfold Qltb, Qleb in *. apply Bool.negb_false_iff. exact E.
Qed.

Lemma clear_expired_keeps_fresh_witness :
  NoDup (map fst [("a"%string, mkEntry (CPrice 1) 0); ("b"%string, mkEntry (CPrice 2) 5000)]) /\
  clear_expired 6000 [("a"%string, mkEntry (CPrice 1) 0); ("b"%string, mkEntry (CPrice 2) 5000)]
  = [("b"%string, mkEntry (CPrice 2) 5000)].
Proof.
  assert (H : NoDup (map fst [("a"%string, mkEntry (CPrice 1) 0);
                              ("b"%string, mkEntry (CPrice 2) 5000)])).
  { repeat constructor; simpl; intuition discriminate. }
  split; [exact H |].
  rewrite (clear_expired_keeps_fresh 6000 _ H). vm_compute. reflexivity.
Defined.

(** ** Steam id lemmas *)

Lemma isdigit_char_not_space (c : ascii) :
  py_isdigit_char c = true -> py_isspace c = false.
Proof. destruct c as [[] [] [] [] [] [] [] []]; vm_compute; congruence. Qed.

Lemma int_char_not_space (c : ascii) :
  py_isspace c = true ->
  Nat.eqb (nat_of_ascii c) 95 = false /\
  (Nat.leb 48 (nat_of_ascii c) && Nat.leb (nat_of_ascii c) 57) = false.
Proof. destruct c as [[] [] [] [] [] [] [] []]; vm_compute; intuition congruence. Qed.

Lemma isdigit_cons (c : ascii) (s : string) :
  py_isdigit (String c s) = py_isdigit_char c && all_chars py_isdigit_char s.
Proof. reflexivity. Qed.

Lemma isdigit_nonempty (s : string) : py_isdigit s = true -> s <> EmptyString.
Proof. intros H ->. discriminate. Qed.

Lemma isdigit_not_sub (s : string) : py_isdigit s = true -> String.prefix "sub_" s = false.
Proof.
  destruct s as [| c s]; [discriminate |]. rewrite isdigit_cons.
  intros H. apply andb_prop in H as [Hc _].
  destruct c as [[] [] [] [] [] [] [] []]; vm_compute in Hc; try discriminate; reflexivity.
Qed.

Lemma isdigit_all_nonspace (s : string) :
  py_isdigit s = true -> all_chars (fun c => negb (py_isspace c)) s = true.
Proof.
  intros H. unfold py_isdigit in H. apply andb_prop in H as [_ H].
  induction s as [| c s IH]; [reflexivity |]. simpl in H |- *.
  apply andb_prop in H as [Hc Hs]. rewrite (isdigit_char_not_space c Hc). simpl. auto.
Qed.

Lemma lstrip_spaces (w x : string) :
  all_chars py_isspace w = true -> lstrip (String.append w x) = lstrip x.
Proof.
  induction w as [| c w IH]; simpl; [reflexivity |].
  intros H. apply andb_prop in H as [Hc Hw]. rewrite Hc. auto.
Qed.

Lemma rstrip_spaces (w : string) : all_chars py_isspace w = true -> rstrip w = EmptyString.
Proof.
  induction w as [| c w IH]; simpl; [reflexivity |].
  intros H. apply andb_prop in H as [Hc Hw]. rewrite IH, Hc by exact Hw. reflexivity.
Qed.

Lemma rstrip_app_blank (x y : string) :
  rstrip y = EmptyString -> rstrip (String.append x y) = rstrip x.
Proof.
  intros Hy. induction x as [| c x IH]; simpl; [exact Hy |]. rewrite IH. reflexivity.
Qed.

Lemma rstrip_nonspace (x : string) :
  all_chars (fun c => negb (py_isspace c)) x = true -> rstrip x = x.
Proof.
  induction x as [| c x IH]; simpl; [reflexivity |].
  intros H. apply andb_prop in H as [Hc Hx]. rewrite IH by exact Hx.
  apply Bool.negb_true_iff in Hc. rewrite Hc. reflexivity.
Qed.

Lemma strip_padded (w1 w2 x : string) :
  all_chars py_isspace w1 = true -> all_chars py_isspace w2 = true ->
  all_chars (fun c => negb (py_isspace c)) x = true ->
  py_strip (String.append w1 (String.append x w2)) = x.
Proof.
  intros H1 H2 Hx. unfold py_strip. rewrite lstrip_spaces by exact H1.
  destruct x as [| c x].
  - simpl. clear H1 Hx. induction w2 as [| c w2 IH]; simpl; [reflexivity |].
    simpl in H2. apply andb_prop in H2 as [Hc Hw]. rewrite Hc. exact (IH Hw).
  - simpl in Hx |- *. apply andb_prop in Hx as [Hc Hx']. apply Bool.negb_true_iff in Hc.
    rewrite Hc. change (String c (String.append x w2)) with (String.append (String c x) w2).
    rewrite rstrip_app_blank by (apply rstrip_spaces; exact H2).
    apply rstrip_nonspace. simpl. rewrite Hc, Hx'. reflexivity.
Qed.

Lemma strip_empty : py_strip EmptyString = EmptyString.
Proof. reflexivity. Qed.

Lemma validate_steam_id_app (s d : string) :
  py_isdigit d = true -> py_strip s = d -> validate_steam_id s = SteamIdOk "app" d.
Proof.
  intros Hd Hs. unfold validate_steam_id.
  destruct (String.eqb s "") eqn:Es.
  - apply String.eqb_eq in Es. subst s. rewrite strip_empty in Hs.
    exfalso. exact (isdigit_nonempty d Hd (eq_sym Hs)).
  - rewrite Hs. destruct (String.eqb d "") eqn:Ed.
    + apply String.eqb_eq in Ed. exfalso. exact (isdigit_nonempty d Hd Ed).
    + simpl. rewrite (isdigit_not_sub d Hd), Hd. simpl.
      destruct d as [| c d]; [discriminate | reflexivity].
Qed.

Lemma validate_steam_id_sub (s d : string) :
  py_isdigit d = true -> py_strip s = String.append "sub_" d ->
  validate_steam_id s = SteamIdOk "sub" d.
Proof.
  intros Hd Hs. unfold validate_steam_id.
  destruct (String.eqb s "") eqn:Es.
  - apply String.eqb_eq in Es. subst s. rewrite strip_empty in Hs. discriminate.
  - rewrite Hs. simpl. rewrite Hd. destruct d as [| c d]; [discriminate | reflexivity].
Qed.

Lemma prefix_split (p t : string) :
  String.prefix p t = true -> t = String.append p (str_drop (String.length p) t).
Proof.
  revert t. induction p as [| a p IH]; intros t H; [reflexivity |].
  destruct t as [| b t]; [discriminate |].
  cbn [String.prefix] in H. destruct (ascii_dec a b) as [<- | _]; [| discriminate].
  cbn [String.append String.length str_drop]. f_equal. apply IH. exact H.
Qed.

Lemma prefix_sub_split (t : string) :
  String.prefix "sub_" t = true -> t = String.append "sub_" (str_drop 4 t).
Proof. apply prefix_split. Qed.

(** ** Steam ids *)

(** Extra.  [validate_steam_id(s)] accepts exactly two forms of the
    stripped text: a digit string [d] (as an App ID ["app"], clean id [d])
    and ["sub_" + d] with [d] a digit string (as a Sub ID ["sub"], clean id
    [d]); the clean id is always a non-empty [isdigit()] string. *)
Theorem validate_steam_id_accepts (s id_type clean_id : string) :
  validate_steam_id s = SteamIdOk id_type clean_id <->
  py_isdigit clean_id = true /\
  ((id_type = "app"%string /\ py_strip s = clean_id) \/
   (id_type = "sub"%string /\ py_strip s = String.append "sub_" clean_id)).
Proof.
  split.
  - unfold validate_steam_id.
    destruct (String.eqb s "" || String.eqb (py_strip s) "") eqn:E0; [discriminate |].
    destruct (String.prefix "sub_" (py_strip s)) eqn:Ep.
    + destruct (py_isdigit (str_drop 4 (py_strip s)) &&
                Nat.ltb 0 (String.length (str_drop 4 (py_strip s)))) eqn:Ed; [| discriminate].
      intros H. inversion H; subst. apply andb_prop in Ed as [Ed _]. split; [exact Ed |].
      right. split; [reflexivity | apply prefix_sub_split; exact Ep].
    + destruct (py_isdigit (py_strip s) && Nat.ltb 0 (String.length (py_strip s))) eqn:Ed;
        [| discriminate].
      intros H. inversion H; subst. apply andb_prop in Ed as [Ed _]. split; [exact Ed |].
      left. split; reflexivity.
  - intros [Hd [[-> Hs] | [-> Hs]]].
    + apply validate_steam_id_app; assumption.
    + apply validate_steam_id_sub; assumption.
Qed.

Lemma validate_steam_id_accepts_witness :
  validate_steam_id " sub_570 " = SteamIdOk "sub" "570" /\
  (py_isdigit "570" = true /\
   (("sub"%string = "app"%string /\ py_strip " sub_570 " = "570"%string) \/
    ("sub"%string = "sub"%string /\ py_strip " sub_570 " = String.append "sub_" "570"))).
Proof.
  assert (H : py_isdigit "570" = true /\
              (("sub"%string = "app"%string /\ py_strip " sub_570 " = "570"%string) \/
               ("sub"%string = "sub"%string /\ py_strip " sub_570 " = String.append "sub_" "570")))
    by (split; [reflexivity | right; split; reflexivity]).
  split; [apply (proj2 (validate_steam_id_accepts " sub_570 " "sub" "570")); exact H | exact H].
Defined.

(** Extra.  Surrounding whitespace does not matter: for a digit string
    [d] and whitespace [w1], [w2], [validate_steam_id(w1 + d + w2)] gives
    the App ID [d] and [validate_steam_id(w1 + "sub_" + d + w2)] the Sub ID
    [d]. *)
Theorem validate_steam_id_padded (w1 w2 d : string) :
  all_chars py_isspace w1 = true -> all_chars py_isspace w2 = true -> py_isdigit d = true ->
  validate_steam_id (String.append w1 (String.append d w2)) = SteamIdOk "app" d /\
  validate_steam_id (String.append w1 (String.append (String.append "sub_" d) w2))
  = SteamIdOk "sub" d.
Proof.
  intros H1 H2 Hd. pose proof (isdigit_all_nonspace d Hd) as Hn. split.
  - apply validate_steam_id_app; [exact Hd |]. apply strip_padded; assumption.
  - apply validate_steam_id_sub; [exact Hd |]. apply strip_padded; [exact H1 | exact H2 |].
    simpl. exact Hn.
Qed.

Lemma validate_steam_id_padded_witness :
  all_chars py_isspace " " = true /\ all_chars py_isspace "  " = true /\
  py_isdigit "730" = true /\
  validate_steam_id (String.append " " (String.append "730" "  ")) = SteamIdOk "app" "730".
Proof.
  assert (H1 : all_chars py_isspace " " = true) by reflexivity.
  assert (H2 : all_chars py_isspace "  " = true) by reflexivity.
  assert (H3 : py_isdigit "730" = true) by reflexivity.
  split; [exact H1 |]. split; [exact H2 |]. split; [exact H3 |].
  exact (proj1 (validate_steam_id_padded " " "  " "730" H1 H2 H3)).
Defined.

Lemma int_to_float_nonneg (z : Z) (f : Q) : (0 <= z)%Z -> int_to_float z = Ret f -> (0 <= f)%Q.
Proof.
  intros Hz H. unfold int_to_float in H. cbv zeta in H.
  destruct (Z.abs z <? 2 ^ 53) eqn:E1.
  - inversion H; subst. unfold Qle; simpl; lia.
  - remember (Z.shiftr (Z.abs z) (Z.log2 (Z.abs z) - 52)) as q eqn:Eq.
    assert (Hq : (0 <= q)%Z) by (subst q; apply Z.shiftr_nonneg; lia).
    match type of H with
    | (if _ then Raise _ else Ret (inject_Z (Z.sgn z * Z.shiftl ?q' ?sh))) = Ret f =>
        assert (Hm : (0 <= Z.shiftl q' sh)%Z)
          by (apply Z.shiftl_nonneg;
              repeat match goal with |- context [if ?b then _ else _] => destruct b end; lia);
        destruct (2 ^ 1024 <=? Z.shiftl q' sh); [discriminate |];
        inversion H; subst
    end.
    pose proof (Z.sgn_nonneg z). unfold Qle; simpl. nia.
Qed.

Lemma py_div100_nonneg (v : jv) (p : Q) :
  py_gt0 v = Ret true -> py_div100 v = Ret p -> (0 <= p)%Q.
Proof.
  assert (Hc : forall x : Q, (0 <= x)%Q -> (0 <= x / 100)%Q).
  { intros x Hx. apply Qmult_le_0_compat; [exact Hx | unfold Qle; simpl; lia]. }
  destruct v; cbn [py_gt0 py_div100]; intros H1 H2; try discriminate.
  - inversion H1; subst. inversion H2; subst. unfold Qle; simpl; lia.
  - inversion H1 as [H1']. apply Z.ltb_lt in H1'. unfold res_bind in H2.
    destruct (int_to_float z) as [f | e] eqn:Ef; [| discriminate].
    inversion H2; subst. apply Hc. apply (int_to_float_nonneg z); [lia | exact Ef].
  - inversion H1 as [H1']. apply Qltb_true in H1'. inversion H2; subst.
    apply Hc. apply Qlt_le_weak. exact H1'.
Qed.

Lemma steam_price_request_spec now api it cid cc key c r c' :
  steam_price_request now api it cid cc key c = (r, c') ->
  (exists e, r = Raise e) \/ r = Ret None \/
  exists p, r = Ret (Some (CPrice p)) /\ (0 <= p)%Q /\
            assoc_find key c' = Some (mkEntry (CPrice p) now).
Proof.
  unfold steam_price_request, mbind, mlift, mret, mset, json. intros H.
  repeat (cbv beta iota zeta in H;
          match type of H with
          | context [match ?x with _ => _ end] => destruct x eqn:?
          end).
  all: inversion H; subst.
  all: first [ left; eexists; reflexivity
             | right; left; reflexivity
             | right; right; eexists; split; [reflexivity |]; split;
               [ first [ eapply py_div100_nonneg; eassumption | apply Qle_refl ]
               | unfold cache_set; apply assoc_find_put_same ] ].
Qed.

(** ** [get_steam_price] *)

(** Extra.  [get_steam_price] never raises: a rejected id returns [None]
    and leaves the cache alone, and on a cache miss the result is [None]
    or a cached price object holding a non-negative price. *)
Theorem get_steam_price_outcome (now : Q) (api : string -> string -> string -> res (response jv))
  (sid cur : string) (c : cache) :
  exists r c', get_steam_price now api sid cur c = (Ret r, c') /\
  ((exists m, validate_steam_id sid = SteamIdBad m) -> r = None /\ c' = c) /\
  (fst (cache_get now (steam_price_key sid cur) c) = None ->
     r = None \/ exists p, r = Some (CPrice p) /\ (0 <= p)%Q).
Proof.
  unfold get_steam_price. destruct (validate_steam_id sid) as [t cl | m] eqn:Ev.
  - unfold mbind, mget. destruct (cache_get now (steam_price_key sid cur) c) as [[v |] c1] eqn:Eg.
    + exists (Some v), c1. split; [reflexivity |].
      split; [intros [m Hm]; discriminate | intros H; discriminate].
    + unfold mcatch.
      set (cc := match assoc_find cur currency_map with Some x => x | None => "ua"%string end).
      destruct (steam_price_request now api t cl cc (steam_price_key sid cur) c1)
        as [r c2] eqn:Er.
      destruct r as [r | e].
      * exists r, c2. split; [reflexivity |]. split; [intros [m Hm]; discriminate |].
        intros _. destruct (steam_price_request_spec _ _ _ _ _ _ _ _ _ Er)
          as [[e He] | [He | [p [He [Hp _]]]]]; inversion He; subst.
        -- left; reflexivity.
        -- right; exists p; split; [reflexivity | exact Hp].
      * exists None, c2. split; [reflexivity |]. split; [intros [m Hm]; discriminate |].
        intros _; left; reflexivity.
  - exists None, c. split; [reflexivity |]. split; [intros _; split; reflexivity |].
    intros _; left; reflexivity.
Qed.

Lemma get_steam_price_outcome_witness :
  exists r c', get_steam_price 0 sample_steam_api "730" "UAH" [] = (Ret r, c') /\
  (r = None \/ exists p, r = Some (CPrice p) /\ (0 <= p)%Q).
Proof.
  destruct (get_steam_price_outcome 0 sample_steam_api "730" "UAH" []) as [r [c' [H1 [_ H3]]]].
  exists r, c'. split; [exact H1 |]. apply H3. reflexivity.
Defined.

(** Extra.  A price that [get_steam_price] fetched on a cache miss is
    served again from the cache by every call for the same id and currency
    made less than an hour later, whatever the store would answer, and
    that call leaves the cache as it is. *)
Theorem get_steam_price_cached (now t : Q)
  (api api2 : string -> string -> string -> res (response jv))
  (sid cur : string) (c c1 : cache) (v : cache_value) :
  fst (cache_get now (steam_price_key sid cur) c) = None ->
  get_steam_price now api sid cur c = (Ret (Some v), c1) ->
  Qltb (t - now) CACHE_TTL = true ->
  get_steam_price t api2 sid cur c1 = (Ret (Some v), c1).
Proof.
  intros Hmiss Hget Ht. unfold get_steam_price in *.
  destruct (validate_steam_id sid) as [it cl | m]; [| discriminate].
  unfold mbind, mget in *.
  destruct (cache_get now (steam_price_key sid cur) c) as [[v0 |] c2] eqn:Eg;
    [discriminate |].
  unfold mcatch in Hget.
  set (cc := match assoc_find cur currency_map with Some x => x | None => "ua"%string end) in *.
  destruct (steam_price_request now api it cl cc (steam_price_key sid cur) c2)
    as [r c3] eqn:Er.
  destruct r as [r | e]; [| discriminate].
  inversion Hget; subst.
  destruct (steam_price_request_spec _ _ _ _ _ _ _ _ _ Er)
    as [[e He] | [He | [p [He [_ Hf]]]]]; inversion He; subst.
  unfold cache_get. rewrite Hf. cbn [entry_timestamp entry_value]. rewrite Ht. reflexivity.
Qed.

Lemma get_steam_price_cached_witness :
  get_steam_price 100 (fun _ _ _ => Raise RequestError) "730" "UAH"
    (snd (get_steam_price 0 sample_steam_api "730" "UAH" []))
  = (Ret (Some (CPrice (41820 / 100))), snd (get_steam_price 0 sample_steam_api "730" "UAH" [])).
Proof.
  apply (get_steam_price_cached 0 100 sample_steam_api (fun _ _ _ => Raise RequestError)
           "730" "UAH" [] (snd (get_steam_price 0 sample_steam_api "730" "UAH" []))).
  - reflexivity.
  - vm_compute. reflexivity.
  - vm_compute. reflexivity.
Defined.

Lemma int_digits_nonspace (s : string) (acc : Z) (prev : bool) (z : Z) :
  int_digits s acc prev = Some z -> all_chars (fun c => negb (py_isspace c)) s = true.
Proof.
  revert acc prev. induction s as [| c s IH]; intros acc prev H; [reflexivity |].
  cbn [int_digits] in H. cbn [all_chars].
  destruct (py_isspace c) eqn:Hc.
  - destruct (int_char_not_space c Hc) as [H95 Hd]. rewrite H95, Hd in H. discriminate.
  - cbn [negb andb].
    destruct (Nat.eqb (nat_of_ascii c) 95).
    + destruct prev; [exact (IH _ _ H) | discriminate].
    + destruct (Nat.leb 48 (nat_of_ascii c) && Nat.leb (nat_of_ascii c) 57);
        [exact (IH _ _ H) | discriminate].
Qed.

(** Extra.  The steam-id edit of a lot accepts a positive number written
    with a leading ["+"] and stores the text as it is, but
    [validate_steam_id] rejects that text, so every later
    [get_steam_price] for the lot returns [None] without a request. *)
Theorem edit_steam_app_id_plus_sign (n d : string) (z : Z) (s : sync_state) :
  int_digits d 0 false = Some z -> (0 < z)%Z -> lot_in n (st_lots s) = true ->
  (exists l, assoc_find n (st_lots (edit_steam_app_id n (String "+" d) s)) = Some l /\
             steam_id l = Some (String "+" d)) /\
  validate_steam_id (String "+" d) = SteamIdBad BadSteamId /\
  (forall now api cur c, get_steam_price now api (String "+" d) cur c = (Ret None, c)).
Proof.
  intros Hd Hz Hin.
  assert (Hs : py_strip (String "+" d) = String "+" d).
  { unfold py_strip. cbn [lstrip]. replace (py_isspace "+") with false by reflexivity.
    apply rstrip_nonspace. cbn [all_chars]. exact (int_digits_nonspace d 0 false z Hd). }
  assert (Hv : validate_steam_id (String "+" d) = SteamIdBad BadSteamId).
  { unfold validate_steam_id. rewrite Hs. reflexivity. }
  split; [| split; [exact Hv |]].
  - unfold edit_steam_app_id. rewrite Hin. cbn [negb]. rewrite Hs.
    assert (Ha : steam_app_id_accepted (String "+" d) = true).
    { unfold steam_app_id_accepted, py_int. replace (String.prefix "sub_" (String "+" d))
        with false by reflexivity. rewrite Hs. cbn [nat_of_ascii]. replace (Nat.eqb _ 43) with true
        by reflexivity. rewrite Hd. apply Z.ltb_lt. exact Hz. }
    rewrite Ha. unfold lot_in in Hin. unfold update_lot.
    destruct (assoc_find n (st_lots s)) as [l0 |] eqn:Ef; [| discriminate].
    cbn [save_lots st_lots]. eexists. split; [apply assoc_find_put_same | reflexivity].
  - intros now api cur c. unfold get_steam_price. rewrite Hv. reflexivity.
Qed.

Lemma edit_steam_app_id_plus_sign_witness :
  int_digits "730" 0 false = Some 730%Z /\ (0 < 730)%Z /\
  lot_in "1" (st_lots (state_with_price 5)) = true /\
  validate_steam_id "+730" = SteamIdBad BadSteamId.
Proof.
  assert (H1 : int_digits "730" 0 false = Some 730%Z) by reflexivity.
  assert (H2 : (0 < 730)%Z) by lia.
  assert (H3 : lot_in "1" (st_lots (state_with_price 5)) = true) by reflexivity.
  split; [exact H1 |]. split; [exact H2 |]. split; [exact H3 |].
  exact (proj1 (proj2 (edit_steam_app_id_plus_sign "1" "730" 730 (state_with_price 5) H1 H2 H3))).
Defined.

(** ** Lot-management lemmas *)

Lemma assoc_find_None {A} k (l : list (string * A)) :
  assoc_find k l = None <-> ~ In k (map fst l).
Proof.
  induction l as [| [k1 v1] l IH]; simpl; [tauto |].
  destruct (String.eqb k k1) eqn:E.
  - apply String.eqb_eq in E. subst. split; [discriminate | intros H; exfalso; apply H; left; reflexivity].
  - apply String.eqb_neq in E. rewrite IH. intuition.
Qed.

Lemma lot_in_false (k : string) (ls : lots) : lot_in k ls = false -> assoc_find k ls = None.
Proof. unfold lot_in. destruct (assoc_find k ls); [discriminate | reflexivity]. Qed.

Lemma assoc_put_absent {A} k v (l : list (string * A)) :
  assoc_find k l = None -> assoc_put k v l = l ++ [(k, v)].
Proof.
  induction l as [| [k1 v1] l IH]; simpl; [reflexivity |].
  destruct (String.eqb k k1); [discriminate |]. intros H. rewrite IH; auto.
Qed.

Lemma process_lots_trace_on (e : env) (now : Q) (n0 : nat) (items : lots) :
  forall lc s any trace id,
  In id (map fst (lr_trace (process_lots e now n0 items lc s any trace))) ->
  In id (map fst trace) \/ exists l, In (id, l) items /\ on l = true.
Proof.
  induction items as [| [k d] rest IH]; intros lc s any trace id H;
    cbn [process_lots lr_trace] in H; [left; exact H |].
  assert (Hrest : forall lc s any,
            In id (map fst (lr_trace (process_lots e now n0 rest lc s any trace))) ->
            In id (map fst trace) \/ exists l, In (id, l) ((k, d) :: rest) /\ on l = true).
  { intros lc1 s1 any1 H1. destruct (IH _ _ _ _ _ H1) as [H2 | [l [Hl Hon]]];
      [left; exact H2 | right; exists l; split; [right; exact Hl | exact Hon]]. }
  destruct (String.eqb k "0" || negb (on d)) eqn:Eskip; [exact (Hrest _ _ _ H) |].
  destruct (Qltb _ _); [exact (Hrest _ _ _ H) |].
  assert (Hstep : In id (map fst (trace ++ [(k, assoc_put k now lc)])) ->
                  In id (map fst trace) \/ exists l, In (id, l) ((k, d) :: rest) /\ on l = true).
  { rewrite In_map_fst_app. intros [H1 | H1]; [left; exact H1 |]. subst id. right.
    exists d. split; [left; reflexivity |].
    apply orb_false_iff in Eskip. destruct Eskip as [_ E]. apply Bool.negb_false_iff in E. exact E. }
  destruct (update_lot_price e now k d s) as [ok s'].
  destruct (Nat.eqb _ _).
  - destruct (IH _ _ _ _ _ H) as [H1 | [l [Hl Hon]]];
      [apply Hstep, H1 | right; exists l; split; [right; exact Hl | exact Hon]].
  - cbn [lr_trace] in H. apply Hstep, H.
Qed.

Lemma scheduler_trace_on (e : env) (now : Q) (lc : last_check) (s : sync_state) (id : string) :
  In id (map fst (lr_trace (scheduler_cycle e now lc s))) ->
  exists l, In (id, l) (st_lots s) /\ on l = true.
Proof.
  destruct (scheduler_cycle_views e now lc s) as [-> _]. intros H.
  destruct (process_lots_trace_on _ _ _ _ _ _ _ _ _ H) as [[] | H']. exact H'.
Qed.

Lemma update_lot_price_invalid (e : env) (now : Q) (id : string) (d : lot) (s : sync_state) :
  validate_lot_data d = false -> update_lot_price e now id d s = (false, s).
Proof. intros H. unfold update_lot_price, compute_new_price. rewrite H. reflexivity. Qed.

(** ** Lot management *)

(** Extra.  A lot created by the add-lot wizard (a parsed maximum above
    the minimum) is stored under its id with the wizard's keys only, so
    [validate_lot_data] rejects it, [update_lot_price] returns [False]
    without touching anything, and no scheduler pass ever processes it
    (its ["on"] key is missing). *)
Theorem handle_wizard_lot_inert (float_of_str : string -> option Q) (ws : wizard_state)
  (text : string) (s : sync_state) (m : Q) (e : env) (now : Q) (lc : last_check) :
  NoDup (map fst (st_lots s)) ->
  float_of_str (comma_to_dot text) = Some m -> (wz_min_price ws < m)%Q ->
  let s' := handle_wizard_max_price float_of_str ws text s in
  assoc_find (wz_lot_id ws) (st_lots s') = Some (wizard_lot ws m) /\
  validate_lot_data (wizard_lot ws m) = false /\
  update_lot_price e now (wz_lot_id ws) (wizard_lot ws m) s' = (false, s') /\
  ~ In (wz_lot_id ws) (map fst (lr_trace (scheduler_cycle e now lc s'))).
Proof.
  intros Hnd Hf Hm s'.
  assert (Hs : s' = save_lots (with_lots (assoc_put (wz_lot_id ws) (wizard_lot ws m)
                                            (st_lots s)) s)).
  { unfold s', handle_wizard_max_price. rewrite Hf.
    replace (Qleb m (wz_min_price ws)) with false; [reflexivity |].
    symmetry. apply Bool.not_true_iff_false. intros H. apply Qle_bool_iff in H.
    exact (Qlt_not_le _ _ Hm H). }
  assert (Hfind : assoc_find (wz_lot_id ws) (st_lots s') = Some (wizard_lot ws m))
    by (rewrite Hs; apply assoc_find_put_same).
  assert (Hval : validate_lot_data (wizard_lot ws m) = false) by reflexivity.
  split; [exact Hfind |]. split; [exact Hval |].
  split; [apply update_lot_price_invalid, Hval |].
  intros Hin. destruct (scheduler_trace_on _ _ _ _ _ Hin) as [l [Hl Hon]].
  assert (Hnd' : NoDup (map fst (st_lots s'))) by (rewrite Hs; apply NoDup_put, Hnd).
  rewrite (NoDup_find_In _ _ _ Hnd' Hl) in Hfind. inversion Hfind; subst. discriminate.
Qed.

Lemma handle_wizard_lot_inert_witness :
  NoDup (map fst (st_lots (state_with_price 5))) /\
  (fun t => if String.eqb t "10.5" then Some (21 # 2) else None) (comma_to_dot "10,5")
    = Some (21 # 2) /\
  (wz_min_price (mkWizardState "2" "730" "UAH" 5) < 21 # 2)%Q /\
  validate_lot_data (wizard_lot (mkWizardState "2" "730" "UAH" 5) (21 # 2)) = false.
Proof.
  assert (H1 : NoDup (map fst (st_lots (state_with_price 5))))
    by (repeat constructor; simpl; intuition discriminate).
  assert (H2 : (fun t => if String.eqb t "10.5" then Some (21 # 2) else None) (comma_to_dot "10,5")
               = Some (21 # 2)) by reflexivity.
  assert (H3 : (wz_min_price (mkWizardState "2" "730" "UAH" 5) < 21 # 2)%Q)
    by (unfold Qlt; simpl; lia).
  split; [exact H1 |]. split; [exact H2 |]. split; [exact H3 |].
  exact (proj1 (proj2 (handle_wizard_lot_inert _ (mkWizardState "2" "730" "UAH" 5) "10,5"
                         (state_with_price 5) (21 # 2) sample_env 0 [] H1 H2 H3))).
Defined.

(** Extra.  Giving an id to a new lot (editing lot ["0"]) with no ["0"]
    template stores the default dict, which has no ["steam_id"]: the lot
    is enabled but [update_lot_price] returns [False] for it without a
    write; typing ["0"] as the new id leaves the lots unchanged. *)
Theorem edit_lot_id_from_zero (st : settings) (new : string) (s : sync_state) (e : env)
  (now : Q) :
  assoc_find "0" (st_lots s) = None -> lot_in new (st_lots s) = false ->
  (new <> "0"%string ->
     assoc_find new (st_lots (edit_lot_id st "0" new s)) = Some (default_new_lot st) /\
     on (default_new_lot st) = true /\
     update_lot_price e now new (default_new_lot st) (edit_lot_id st "0" new s)
       = (false, edit_lot_id st "0" new s)) /\
  (new = "0"%string -> st_lots (edit_lot_id st "0" new s) = st_lots s).
Proof.
  intros H0 Hnew. unfold edit_lot_id.
  replace (String.eqb "0" "0") with true by reflexivity. rewrite Hnew, H0.
  split.
  - intros Hne.
    assert (Hl : lot_in "0" (assoc_put new (default_new_lot st) (st_lots s)) = false).
    { unfold lot_in. rewrite assoc_find_put_other, H0; [reflexivity |].
      apply String.eqb_neq. intros E. apply Hne. symmetry. exact E. }
    rewrite Hl. cbn [save_lots with_lots st_lots].
    split; [apply assoc_find_put_same |]. split; [reflexivity |].
    apply update_lot_price_invalid. reflexivity.
  - intros ->. cbn [save_lots with_lots st_lots].
    unfold lot_in at 1. rewrite assoc_find_put_same.
    rewrite assoc_put_absent by exact H0.
    rewrite assoc_remove_filter, filter_app, <- assoc_remove_filter.
    rewrite assoc_remove_absent by (apply assoc_find_None; exact H0).
    cbn. apply app_nil_r.
Qed.

Lemma edit_lot_id_from_zero_witness :
  assoc_find "0" (st_lots (state_with_price 5)) = None /\
  lot_in "2" (st_lots (state_with_price 5)) = false /\
  assoc_find "2" (st_lots (edit_lot_id default_settings "0" "2" (state_with_price 5)))
    = Some (default_new_lot default_settings).
Proof.
  assert (H1 : assoc_find "0" (st_lots (state_with_price 5)) = None) by reflexivity.
  assert (H2 : lot_in "2" (st_lots (state_with_price 5)) = false) by reflexivity.
  assert (H3 : "2"%string <> "0"%string) by discriminate.
  split; [exact H1 |]. split; [exact H2 |].
  exact (proj1 (proj1 (edit_lot_id_from_zero default_settings "2" (state_with_price 5)
                         sample_env 0 H1 H2) H3)).
Defined.

(** Extra.  Renaming an existing lot [n] (not ["0"]) to a free id moves
    its dict to the new id: the old id is gone, every other lot is
    unchanged, and the number of lots and the uniqueness of ids are kept. *)
Theorem edit_lot_id_rename (st : settings) (n new : string) (s : sync_state) (d : lot) :
  NoDup (map fst (st_lots s)) -> n <> "0"%string -> assoc_find n (st_lots s) = Some d ->
  new <> n -> lot_in new (st_lots s) = false ->
  let ls' := st_lots (edit_lot_id st n new s) in
  assoc_find new ls' = Some d /\ assoc_find n ls' = None /\
  (forall k, k <> n -> k <> new -> assoc_find k ls' = assoc_find k (st_lots s)) /\
  List.length ls' = List.length (st_lots s) /\ NoDup (map fst ls').
Proof.
  intros Hnd Hn0 Hf Hne Hfree ls'.
  assert (Hls : ls' = assoc_remove n (assoc_put new d (st_lots s))).
  { unfold ls', edit_lot_id. apply String.eqb_neq in Hn0. rewrite Hn0, Hf, Hfree.
    apply String.eqb_neq in Hne. rewrite Hne. reflexivity. }
  apply lot_in_false in Hfree.
  assert (Hne' : String.eqb new n = false) by (apply String.eqb_neq; exact Hne).
  rewrite Hls. split; [| split; [| split; [| split]]].
  - rewrite assoc_find_remove_other by exact Hne'. apply assoc_find_put_same.
  - apply assoc_find_remove_same.
  - intros k Hk1 Hk2. rewrite assoc_find_remove_other by (apply String.eqb_neq; exact Hk1).
    apply assoc_find_put_other. apply String.eqb_neq. exact Hk2.
  - assert (Hnd' : NoDup (map fst (assoc_put new d (st_lots s)))) by (apply NoDup_put, Hnd).
    assert (Hin : In n (map fst (assoc_put new d (st_lots s)))).
    { apply In_map_fst_put. left. apply in_map_iff. exists (n, d). split; [reflexivity |].
      clear - Hf. induction (st_lots s) as [| [k v] l IH]; simpl in Hf; [discriminate |].
      destruct (String.eqb n k) eqn:E.
      - inversion Hf; subst. apply String.eqb_eq in E. subst. left. reflexivity.
      - right. exact (IH Hf). }
    pose proof (assoc_remove_length n _ Hnd' Hin) as HL.
    rewrite assoc_put_absent in HL |- * by exact Hfree. rewrite length_app in HL. simpl in HL. lia.
  - apply NoDup_remove_keys, NoDup_put, Hnd.
Qed.

Lemma edit_lot_id_rename_witness :
  assoc_find "7" (st_lots (edit_lot_id default_settings "1" "7" (state_with_price 5)))
    = Some sample_lot.
Proof.
  assert (H1 : NoDup (map fst (st_lots (state_with_price 5))))
    by (repeat constructor; simpl; intuition discriminate).
  exact (proj1 (edit_lot_id_rename default_settings "1" "7" (state_with_price 5) sample_lot H1
                  ltac:(discriminate) eq_refl ltac:(discriminate) eq_refl)).
Defined.

(** Extra.  Editing a lot's ["min"] stores any parsed number, with no
    check against zero or against the lot's ["max"]; when the new minimum
    is not positive or exceeds the maximum, [update_lot_price] returns
    [False] for the lot without a write. *)
Theorem edit_lot_bound_min_unchecked (float_of_str : string -> option Q) (n text : string)
  (s : sync_state) (d : lot) (v : Q) (e : env) (now : Q) :
  assoc_find n (st_lots s) = Some d -> float_of_str text = Some v ->
  let s' := edit_lot_bound float_of_str n "min" text s in
  assoc_find n (st_lots s') = Some (set_bound "min" v d) /\ lot_min (set_bound "min" v d) = Some v /\
  ((v <= 0)%Q \/ (exists mx, lot_max d = Some mx /\ (mx < v)%Q) ->
     update_lot_price e now n (set_bound "min" v d) s' = (false, s')).
Proof.
  intros Hf Hv s'.
  assert (Hs : s' = save_lots (mkSyncState (assoc_put n (set_bound "min" v d) (st_lots s))
                                  (st_remote s) (st_writes s) (st_saves s))).
  { unfold s', edit_lot_bound, lot_in. rewrite Hf. cbn [negb]. rewrite Hv.
    unfold update_lot. rewrite Hf. reflexivity. }
  split; [rewrite Hs; apply assoc_find_put_same |]. split; [reflexivity |].
  intros Hbad. apply update_lot_price_invalid.
  unfold validate_lot_data, set_bound. replace (String.eqb "min" "min") with true by reflexivity.
  cbn [steam_id steam_currency lot_min lot_max].
  destruct (steam_id d), (steam_currency d), (lot_max d) as [mx |]; try reflexivity.
  destruct Hbad as [Hle | [mx' [Emx Hlt]]].
  - replace (Qltb 0 v) with false; [rewrite !andb_false_r; reflexivity |].
    symmetry. apply Qltb_false. exact Hle.
  - inversion Emx; subst mx'. replace (Qleb v mx) with false; [rewrite andb_false_r; reflexivity |].
    symmetry. apply Bool.not_true_iff_false. intros H. apply Qle_bool_iff in H.
    exact (Qlt_not_le _ _ Hlt H).
Qed.

Lemma edit_lot_bound_min_unchecked_witness :
  update_lot_price sample_env 0 "1" (set_bound "min" 6000 sample_lot)
    (edit_lot_bound (fun t => if String.eqb t "6000" then Some 6000%Q else None) "1" "min" "6000"
       (state_with_price 5))
  = (false, edit_lot_bound (fun t => if String.eqb t "6000" then Some 6000%Q else None) "1" "min"
              "6000" (state_with_price 5)).
Proof.
  refine (proj2 (proj2 (edit_lot_bound_min_unchecked
             (fun t => if String.eqb t "6000" then Some 6000%Q else None) "1" "6000"
             (state_with_price 5) sample_lot 6000 sample_env 0 eq_refl eq_refl)) _).
  right. exists 5000%Q. split; [reflexivity | unfold Qlt; simpl; lia].
Defined.

Lemma Qleb_false_lt (a b : Q) : Qleb a b = false -> (b < a)%Q.
Proof. unfold Qleb. apply Qle_bool_false. Qed.

Lemma apply_markups_min_above_max (st : settings) (b : Q) :
  (max_price st < min_price st)%Q -> apply_markups st b = py_round2 (min_price st).
Proof.
  intros H. unfold apply_markups. f_equal.
  set (x := (b * (1 + first_markup st / 100) * (1 + second_markup st / 100) + fixed_markup st)%Q).
  assert (Hx : (py_min x (max_price st) <= max_price st)%Q).
  { unfold py_min. destruct (Qltb (max_price st) x) eqn:E; [apply Qle_refl |].
    apply Qltb_false in E. exact E. }
  unfold py_max. replace (Qltb (py_min x (max_price st)) (min_price st)) with true;
    [reflexivity |].
  symmetry. apply Qltb_true. exact (Qle_lt_trans _ _ _ Hx H).
Qed.

(** ** Settings *)

(** Extra.  A settings edit keeps the ranges the handler enforces: the
    update interval stays at least one hour, the three markups stay
    non-negative, both price bounds stay positive, and the account
    currency is never changed by it. *)
Theorem edit_setting_keeps_ranges (int_of_str : string -> option Z)
  (float_of_str : string -> option Q) (key text : string) (st : settings) :
  (3600 <= time_interval st)%Q -> (0 <= first_markup st)%Q -> (0 <= second_markup st)%Q ->
  (0 <= fixed_markup st)%Q -> (0 < min_price st)%Q -> (0 < max_price st)%Q ->
  let st' := edit_setting int_of_str float_of_str key text st in
  (3600 <= time_interval st')%Q /\ (0 <= first_markup st')%Q /\ (0 <= second_markup st')%Q /\
  (0 <= fixed_markup st')%Q /\ (0 < min_price st')%Q /\ (0 < max_price st')%Q /\
  currency st' = currency st.
Proof.
  intros Ht H1 H2 H3 Hmin Hmax st'. unfold st', edit_setting.
  destruct (String.eqb key "time").
  { destruct (int_of_str text) as [h |]; [| repeat split; assumption].
    cbn [time_interval first_markup second_markup fixed_markup min_price max_price currency].
    repeat split; try assumption.
    destruct (Z.ltb h 1) eqn:E; [unfold Qle; simpl; lia |].
    apply Z.ltb_ge in E. unfold Qle; simpl; lia. }
  destruct (String.eqb key "first_markup" || String.eqb key "second_markup"
            || String.eqb key "fixed_markup").
  { destruct (float_of_str text) as [v |]; [| repeat split; assumption].
    assert (Hv : (0 <= (if Qltb v 0 then 0 else v))%Q).
    { destruct (Qltb v 0) eqn:E; [apply Qle_refl | apply Qltb_false in E; exact E]. }
    destruct (String.eqb key "first_markup"); [| destruct (String.eqb key "second_markup")];
      cbn [time_interval first_markup second_markup fixed_markup min_price max_price currency];
      repeat split; assumption. }
  destruct (String.eqb key "min_price" || String.eqb key "max_price");
    [| repeat split; assumption].
  destruct (float_of_str text) as [v |]; [| repeat split; assumption].
  destruct (Qleb v 0) eqn:E; [repeat split; assumption |].
  apply Qleb_false_lt in E.
  destruct (String.eqb key "min_price");
    cbn [time_interval first_markup second_markup fixed_markup min_price max_price currency];
    repeat split; assumption.
Qed.

Lemma edit_setting_keeps_ranges_witness :
  (3600 <= time_interval (edit_setting py_int (fun _ => None) "time" "0" default_settings))%Q.
Proof.
  exact (proj1 (edit_setting_keeps_ranges py_int (fun _ => None) "time" "0" default_settings
                  ltac:(unfold Qle; simpl; lia) ltac:(unfold Qle; simpl; lia)
                  ltac:(unfold Qle; simpl; lia) ltac:(unfold Qle; simpl; lia)
                  ltac:(unfold Qlt; simpl; lia) ltac:(unfold Qlt; simpl; lia))).
Defined.

(** Extra.  The settings edit of ["min_price"] accepts any positive
    number, also one above ["max_price"]; afterwards every price
    [calculate_lot_price] returns is [0], the new minimum or the new
    minimum rounded to cents. *)
Theorem edit_setting_min_above_max (int_of_str : string -> option Z)
  (float_of_str : string -> option Q) (text : string) (st : settings) (v : Q)
  (fs : string -> option Q) (rates : string -> Q) (sp cur : pyval) (r : Q) :
  float_of_str text = Some v -> (0 < v)%Q -> (max_price st < v)%Q ->
  let st' := edit_setting int_of_str float_of_str "min_price" text st in
  min_price st' = v /\
  (calculate_lot_price fs rates st' sp cur = Ret r -> r = 0%Q \/ r = v \/ r = py_round2 v).
Proof.
  intros Hf Hpos Hgt st'.
  assert (Hmin : min_price st' = v).
  { unfold st', edit_setting. cbn [String.eqb orb]. rewrite Hf.
    replace (Qleb v 0) with false; [reflexivity |].
    symmetry. apply Bool.not_true_iff_false. intros H. apply Qle_bool_iff in H.
    exact (Qlt_not_le _ _ Hpos H). }
  assert (Hmax : max_price st' = max_price st).
  { unfold st', edit_setting. cbn [String.eqb orb]. rewrite Hf.
    destruct (Qleb v 0); reflexivity. }
  split; [exact Hmin |]. intros Hc.
  unfold calculate_lot_price in Hc.
  destruct (py_float fs sp) as [p | ex].
  - destruct (Qleb p (1 # 100)).
    + inversion Hc. right; left; exact Hmin.
    + unfold calc_body, res_bind in Hc.
      destruct (convert_price rates st' p cur) as [[b |] | ex]; injection Hc as <-.
      * right; right. rewrite apply_markups_min_above_max; [rewrite Hmin; reflexivity |].
        rewrite Hmin, Hmax. exact Hgt.
      * left; reflexivity.
      * left; reflexivity.
  - destruct ex; inversion Hc; left; reflexivity.
Qed.

Lemma edit_setting_min_above_max_witness :
  min_price (edit_setting py_int (fun t => if String.eqb t "6000" then Some 6000%Q else None)
               "min_price" "6000" default_settings) = 6000%Q.
Proof.
  exact (proj1 (edit_setting_min_above_max py_int
                  (fun t => if String.eqb t "6000" then Some 6000%Q else None) "6000"
                  default_settings 6000 no_str_parse c1_rates (PyFloat 100) (PyStr "USD") 0
                  eq_refl ltac:(unfold Qlt; simpl; lia) ltac:(unfold Qlt; simpl; lia))).
Defined.

(** ** Lot toggling and deletion *)



(** Extra.  After [delete_lot_confirm] the id is no longer a key of the
    lots, every other lot is unchanged, and no later scheduler pass
    processes the id. *)
Theorem delete_lot_confirm_forgets (id : string) (s : sync_state) (e : env) (now : Q)
  (lc : last_check) :
  ~ In id (map fst (st_lots (delete_lot_confirm id s))) /\
  (forall k, k <> id ->
     assoc_find k (st_lots (delete_lot_confirm id s)) = assoc_find k (st_lots s)) /\
  ~ In id (map fst (lr_trace (scheduler_cycle e now lc (delete_lot_confirm id s)))).
Proof.
  assert (Hgone : ~ In id (map fst (st_lots (delete_lot_confirm id s)))).
  { unfold delete_lot_confirm. destruct (lot_in id (st_lots s)) eqn:E; cbn [negb].
    - cbn [save_lots with_lots st_lots]. rewrite In_map_fst_remove. tauto.
    - apply assoc_find_None. apply lot_in_false. exact E. }
  split; [exact Hgone |]. split.
  - intros k Hk. unfold delete_lot_confirm. destruct (lot_in id (st_lots s)); cbn [negb];
      [| reflexivity].
    cbn [save_lots with_lots st_lots]. apply assoc_find_remove_other.
    apply String.eqb_neq. exact Hk.
  - intros Hin. destruct (scheduler_trace_on _ _ _ _ _ Hin) as [l [Hl _]].
    apply Hgone. apply in_map_iff. exists (id, l). split; [reflexivity | exact Hl].
Qed.

(** ** Currency switches *)

Lemma py_index_absent (x : string) (l : list string) : ~ In x l -> py_index x l = None.
Proof.
  induction l as [| y l IH]; simpl; intros H; [reflexivity |].
  destruct (String.eqb x y) eqn:E.
  - apply String.eqb_eq in E. subst. exfalso. apply H. left. reflexivity.
  - rewrite IH; [reflexivity | intros H'; apply H; right; exact H'].
Qed.

Lemma next_in_cycle_In (items : list string) (cur dflt : string) :
  In dflt items -> In (next_in_cycle items cur dflt) items.
Proof.
  intros H. unfold next_in_cycle. destruct (py_index cur items) as [i |]; [| exact H].
  apply nth_In. apply Nat.mod_upper_bound. destruct items; [contradiction | discriminate].
Qed.

(** Extra.  [switch_currency] always leaves an account currency among
    USD, RUB and EUR; an unknown currency becomes USD, and from a known
    one three switches come back to the same settings. *)
Theorem switch_currency_cycle (st : settings) :
  In (currency (switch_currency st)) account_currencies /\
  (~ In (currency st) account_currencies -> currency (switch_currency st) = "USD"%string) /\
  (In (currency st) account_currencies ->
     switch_currency (switch_currency (switch_currency st)) = st).
Proof.
  split; [apply next_in_cycle_In; left; reflexivity |]. split.
  - intros H. cbn [switch_currency currency]. unfold next_in_cycle.
    rewrite py_index_absent by exact H. reflexivity.
  - destruct st as [c t m1 m2 m3 mx mn]. cbn [currency].
    intros [<- | [<- | [<- | []]]]; reflexivity.
Qed.

Lemma switch_currency_cycle_witness :
  switch_currency (switch_currency (switch_currency default_settings)) = default_settings.
Proof.
  exact (proj2 (proj2 (switch_currency_cycle default_settings)) (or_introl eq_refl)).
Defined.

(** Extra.  [switch_steam_currency] sets the lot's Steam currency to one
    of UAH, KZT, RUB, USD, and changes nothing else in the lot; a lot in
    EUR (which the cycle does not contain) is set to UAH, and from a
    currency of the cycle four switches give back the same lots. *)
Theorem switch_steam_currency_cycle (id : string) (s : sync_state) (d : lot) :
  assoc_find id (st_lots s) = Some d ->
  (exists c, assoc_find id (st_lots (switch_steam_currency id s)) = Some (set_steam_currency c d) /\
             In c steam_currencies) /\
  (steam_currency d = Some "EUR"%string ->
     assoc_find id (st_lots (switch_steam_currency id s)) = Some (set_steam_currency "UAH" d)) /\
  (forall c, steam_currency d = Some c -> In c steam_currencies ->
     st_lots (switch_steam_currency id (switch_steam_currency id
       (switch_steam_currency id (switch_steam_currency id s)))) = st_lots s).
Proof.
  intros Hf.
  set (g := fun d0 : lot => set_steam_currency
              (next_in_cycle steam_currencies
                 (match steam_currency d0 with Some c => c | None => "UAH"%string end) "UAH") d0).
  assert (Hsw : forall s0 d0, assoc_find id (st_lots s0) = Some d0 ->
            st_lots (switch_steam_currency id s0) = assoc_put id (g d0) (st_lots s0)).
  { intros s0 d0 H. unfold switch_steam_currency, lot_in, update_lot. rewrite H. reflexivity. }
  split; [| split].
  - eexists. split; [rewrite (Hsw s d Hf); apply assoc_find_put_same |].
    apply next_in_cycle_In. left. reflexivity.
  - intros He. rewrite (Hsw s d Hf), assoc_find_put_same. unfold g. rewrite He. reflexivity.
  - intros c Hc Hin.
    assert (Hstep : forall s0 d0, st_lots s0 = assoc_put id d0 (st_lots s) ->
              st_lots (switch_steam_currency id s0) = assoc_put id (g d0) (st_lots s)).
    { intros s0 d0 H0. rewrite (Hsw s0 d0); [rewrite H0, assoc_put_put; reflexivity |].
      rewrite H0. apply assoc_find_put_same. }
    assert (E1 : st_lots (switch_steam_currency id s) = assoc_put id (g d) (st_lots s))
      by (apply Hsw, Hf).
    rewrite (Hstep _ _ (Hstep _ _ (Hstep _ _ E1))).
    replace (g (g (g (g d)))) with d; [apply assoc_put_same_find, Hf |].
    destruct d as [sid cur mn mx o lsp lp lu]. cbn [steam_currency] in Hc. subst cur.
    destruct Hin as [<- | [<- | [<- | [<- | []]]]]; reflexivity.
Qed.

Lemma switch_steam_currency_cycle_witness :
  st_lots (switch_steam_currency "1" (switch_steam_currency "1"
    (switch_steam_currency "1" (switch_steam_currency "1" (state_with_price 5)))))
  = st_lots (state_with_price 5).
Proof.
  exact (proj2 (proj2 (switch_steam_currency_cycle "1" (state_with_price 5) sample_lot eq_refl))
           "UAH"%string eq_refl (or_introl eq_refl)).
Defined.

(** ** [update_now] *)

Lemma update_now_loop_counts (e : env) (now : Q) (ids : list string) :
  forall s u f u' f' s', update_now_loop e now ids s u f = (u', f', s') ->
  (u' + f' = u + f + List.length ids)%nat.
Proof.
  induction ids as [| id ids IH]; intros s u f u' f' s' H; cbn [update_now_loop] in H.
  - inversion H; subst. simpl. lia.
  - cbn [List.length]. destruct (assoc_find id (st_lots s)) as [d |].
    + destruct (update_lot_price e now id d s) as [[|] s1].
      * apply IH in H. lia.
      * apply IH in H. lia.
    + apply IH in H. lia.
Qed.

(** Extra.  [update_now] answers "Cardinal недоступен" exactly when the
    health check fails.  With a healthy Cardinal it reports no active lots
    exactly when no lot other than ["0"] is enabled; otherwise each active
    lot is counted once, as updated or as failed. *)
Theorem update_now_counts (healthy : bool) (e : env) (now : Q) (s : sync_state) :
  (update_now healthy e now s = CardinalDown <-> healthy = false) /\
  (update_now healthy e now s = NoActiveLots <->
     healthy = true /\ active_lot_ids (st_lots s) = []) /\
  (forall u f s', update_now healthy e now s = UpdateDone u f s' ->
     healthy = true /\ (u + f = List.length (active_lot_ids (st_lots s)))%nat).
Proof.
  unfold update_now. destruct healthy; cbn [negb].
  - destruct (active_lot_ids (st_lots s)) as [| a rest] eqn:E.
    + split; [split; discriminate |]. split; [tauto |]. discriminate.
    + destruct (update_now_loop e now (a :: rest) s 0 0) as [[u1 f1] s1] eqn:El.
      split; [split; discriminate |]. split; [split; [discriminate | intros [_ H]; discriminate] |].
      intros u f s' H. inversion H; subst. split; [reflexivity |].
      apply update_now_loop_counts in El. lia.
  - split; [tauto |]. split; [split; [discriminate | intros [H _]; discriminate] |].
    discriminate.
Qed.

Lemma update_now_counts_witness :
  match update_now true sample_env 0 (state_with_price 5) with
  | UpdateDone u f _ => (u + f = 1)%nat
  | _ => False
  end.
Proof.
  destruct (update_now true sample_env 0 (state_with_price 5)) as [| | u f s'] eqn:E.
  - apply (proj1 (update_now_counts true sample_env 0 (state_with_price 5))) in E.
    discriminate.
  - apply (proj1 (proj2 (update_now_counts true sample_env 0 (state_with_price 5)))) in E.
    destruct E as [_ E]. discriminate.
  - exact (proj2 (proj2 (proj2 (update_now_counts true sample_env 0 (state_with_price 5))) u f s' E)).
Defined.

(** ** [show_lots_menu] *)

Lemma firstn_add_skipn {A} (n m : nat) (l : list A) :
  firstn (n + m) l = firstn n l ++ firstn m (skipn n l).
Proof.
  revert l. induction n as [| n IH]; intros l; [reflexivity |].
  destruct l as [| a l]; [destruct m; reflexivity |]. cbn. rewrite IH. reflexivity.
Qed.

Lemma pages_concat {A} (l : list A) (k : nat) :
  List.concat (map (fun p => firstn 8 (skipn (p * 8)%nat l)) (seq 0 k)) = firstn (k * 8)%nat l.
Proof.
  induction k as [| k IH]; [reflexivity |].
  rewrite seq_S, map_app, concat_app, IH. cbn [map List.concat]. rewrite ?app_nil_r.
  replace (S k * 8)%nat with (k * 8 + 8)%nat by lia. rewrite firstn_add_skipn. reflexivity.
Qed.

Lemma insert_sorted_perm (x : string * lot) (l : list (string * lot)) :
  Permutation (insert_sorted x l) (x :: l).
Proof.
  induction l as [| y l IH]; simpl; [reflexivity |].
  destruct (lot_key_lt x y); [reflexivity |].
  eapply perm_trans; [apply perm_skip, IH | apply perm_swap].
Qed.

Lemma sort_lots_perm (l : list (string * lot)) : Permutation (sort_lots l) l.
Proof.
  induction l as [| x l IH]; simpl; [reflexivity |].
  eapply perm_trans; [apply insert_sorted_perm | apply perm_skip, IH].
Qed.

Lemma insert_sorted_on_first (x : string * lot) (l : list (string * lot)) :
  StronglySorted (fun a b => on (snd b) = true -> on (snd a) = true) l ->
  StronglySorted (fun a b => on (snd b) = true -> on (snd a) = true) (insert_sorted x l).
Proof.
  induction l as [| y l IH]; simpl; intros H.
  - constructor; constructor.
  - inversion H as [| y' l' Hl Hall]; subst. destruct (lot_key_lt x y) eqn:E.
    + assert (Hxy : on (snd y) = true -> on (snd x) = true).
      { intros Hy. destruct (on (snd x)) eqn:Ex; [reflexivity |].
        unfold lot_key_lt in E. rewrite Ex, Hy in E. discriminate. }
      constructor; [exact H |]. constructor; [exact Hxy |].
      rewrite Forall_forall in Hall |- *. intros z Hz Hzon. apply Hxy, (Hall z Hz Hzon).
    + constructor; [apply IH, Hl |].
      assert (Hyx : on (snd x) = true -> on (snd y) = true).
      { intros Hx. destruct (on (snd y)) eqn:Ey; [reflexivity |].
        unfold lot_key_lt in E. rewrite Ey, Hx in E. discriminate. }
      rewrite Forall_forall in Hall |- *. intros z Hz.
      apply (Permutation_in _ (insert_sorted_perm x l)) in Hz.
      destruct Hz as [<- | Hz]; [exact Hyx | exact (Hall z Hz)].
Qed.

(** Extra.  The lot list of [show_lots_menu] holds every lot except
    ["0"], each once, and no enabled lot is listed after a disabled one. *)
Theorem menu_items_order (ls : lots) :
  Permutation (menu_items ls) (filter (fun kv => negb (String.eqb (fst kv) "0")) ls) /\
  StronglySorted (fun a b => on (snd b) = true -> on (snd a) = true) (menu_items ls).
Proof.
  unfold menu_items. split; [apply sort_lots_perm |].
  induction (filter _ ls) as [| x l IH]; simpl; [constructor |].
  apply insert_sorted_on_first, IH.
Qed.

(** Extra.  With at least one lot to list, the pages [0] to
    [(total - 1) // 8] of [show_lots_menu] put together give the whole
    sorted list, and a page shows the "next" button exactly when a later
    page is within that count. *)
Theorem menu_pages_cover (ls : lots) :
  (0 < List.length (menu_items ls))%nat ->
  let n := List.length (menu_items ls) in
  List.concat (map (menu_page ls) (seq 0 ((n - 1) / LOTS_PER_PAGE + 1))) = menu_items ls /\
  (forall page, menu_has_next ls page = true <-> (page + 1 < (n - 1) / LOTS_PER_PAGE + 1)%nat).
Proof.
  intros Hpos n. unfold LOTS_PER_PAGE.
  pose proof (Nat.div_mod_eq (n - 1) 8) as Hdm. pose proof (Nat.mod_upper_bound (n - 1) 8) as Hr.
  set (q := ((n - 1) / 8)%nat) in *. set (r := ((n - 1) mod 8)%nat) in *.
  split.
  - unfold menu_page, LOTS_PER_PAGE. rewrite pages_concat. apply firstn_all2.
    fold n. specialize (Hr ltac:(discriminate)). lia.
  - intros page. unfold menu_has_next, LOTS_PER_PAGE. fold n. rewrite Nat.ltb_lt.
    specialize (Hr ltac:(discriminate)). lia.
Qed.

Lemma menu_pages_cover_witness :
  List.concat (map (menu_page (st_lots (state_with_price 5)))
            (seq 0 ((List.length (menu_items (st_lots (state_with_price 5))) - 1)
                      / LOTS_PER_PAGE + 1)))
  = menu_items (st_lots (state_with_price 5)).
Proof.
  exact (proj1 (menu_pages_cover (st_lots (state_with_price 5)) ltac:(vm_compute; lia))).
Defined.

(** ** [get_currency_rate] *)

(** Extra.  A rate found in the cache under [currency_rate_<CODE>] whose
    own timestamp is less than 15 minutes old (and whose cache entry has
    not expired) is returned as it is, whatever the upstream sources
    would answer and even when it is not positive, and the cache is left
    unchanged. *)
Theorem get_currency_rate_cache_hit (t : Q) (up : upstream) (cur : string) (c : cache)
  (r ts ets : Q) (src : string) :
  String.eqb (str_upper cur) "USD" = false ->
  assoc_find (rate_key (str_upper cur)) c = Some (mkEntry (CRate r ts src) ets) ->
  Qltb (t - ets) CACHE_TTL = true -> Qltb (t - ts) 900 = true ->
  get_currency_rate t up cur c = (Ret r, c).
Proof.
  intros Husd Hf Httl H900.
  unfold get_currency_rate, _get_fallback_rate, mbind, mget, mret, cache_get.
  cbv zeta. rewrite Husd.
  repeat (rewrite Hf; cbn [entry_timestamp entry_value]; rewrite ?Httl, ?H900; cbv beta iota).
  destruct (Qltb 0 r); reflexivity.
Qed.

Lemma get_currency_rate_cache_hit_witness :
  get_currency_rate 100 all_sources_down "uah"
    [("currency_rate_UAH"%string, mkEntry (CRate 0 0 "exchangerate-api") 0)]
  = (Ret 0%Q, [("currency_rate_UAH"%string, mkEntry (CRate 0 0 "exchangerate-api") 0)]).
Proof.
  apply (get_currency_rate_cache_hit 100 all_sources_down "uah" _ 0 0 0 "exchangerate-api");
    vm_compute; reflexivity.
Defined.
